(** * AI SQL backend: the ask-flow, the CRUD builder and the raw-SQL surface

    A shallow embedding of [src/server.js] (Express handlers over a
    mysql2 pool and a Groq completion client) and the properties of its
    natural-language specification.

    Conventions of the embedding.

    - A JavaScript string is a Rocq [string]: the sequence of the bytes of
      its UTF-8 encoding.  Every literal the handlers search for or
      compare with is ASCII, and an ASCII byte never occurs inside the
      encoding of another character, so [split], [includes] and the two
      fence patterns agree with their JavaScript counterparts.  Case
      conversion is the ASCII one: bytes above 127 are left as they are.
      On ASCII text this is the conversion of JavaScript.  Outside ASCII
      it is not: the dotless i and the long s upper-case to [I] and [S],
      the ligatures U+FB05 and U+FB06 to [ST], and these are not folded
      here; a property that would depend on them is stated for ASCII
      text ([ascii_text]).
    - A request body is a record of the fields the handler reads.  A text
      field is [option string]: [None] when the field is absent
      ([undefined]).  Payload that the handlers only pass on (the values
      of [data], the rows of a result set) is a JSON [value].
    - The store and the completion endpoint are outside the program: a
      handler is a tree of calls ([io]) whose continuations receive the
      outcome of each call, and [run] plays such a tree against a
      [world], recording the calls made.  The upload handler, which also
      reads and removes a stored file, has a tree of its own
      ([Upload.job], played by [Upload.play] against an [Upload.host]). *)

From Stdlib Require Import String Ascii List Bool Arith Lia ZArith QArith.
Import ListNotations.
Local Close Scope Q_scope.
Local Open Scope nat_scope.
Local Open Scope list_scope.
Local Open Scope string_scope.

Set Implicit Arguments.

(** ** JSON values *)

#[warnings="-register-all"]
Inductive value : Type :=
| VNull
| VBool (b : bool)
| VNum (q : Q)
| VStr (s : string)
| VArr (items : list value)
| VObj (props : list (string * value)).

(** A number literal of the handlers ([0], a length, an affected-row count). *)
Definition num_of_nat (n : nat) : value := VNum (inject_Z (Z.of_nat n)).

(** ** Strings *)

Module JsString.

Definition LF : ascii := "010"%char.

(** [!s] for a text field: absent and the empty string are falsy. *)
Definition truthy (f : option string) : bool :=
  match f with
  | None => false
  | Some s => negb (s =? "")
  end.

(** The text of a field where the handler uses it as a string
    ([`${f}`]). *)
Definition template (f : option string) : string :=
  match f with
  | Some s => s
  | None => "undefined"
  end.

Fixpoint drop (n : nat) (s : string) : string :=
  match n, s with
  | S n', String _ s' => drop n' s'
  | _, _ => s
  end.

Fixpoint rev_onto (s acc : string) : string :=
  match s with
  | EmptyString => acc
  | String c s' => rev_onto s' (String c acc)
  end.

Definition rev (s : string) : string := rev_onto s "".

(** [s.includes(sub)] *)
Fixpoint includes (s sub : string) : bool :=
  prefix sub s ||
  match s with
  | EmptyString => false
  | String _ s' => includes s' sub
  end.

(** [s.split(sep)] for a non-empty separator [sep]: [cur] is the piece
    being read and [skip] the number of bytes of a matched separator
    still to pass over. *)
Fixpoint split_go (sep : string) (skip : nat) (cur : string) (s : string)
  : list string :=
  match s with
  | EmptyString => [cur]
  | String c s' =>
      match skip with
      | S k => split_go sep k cur s'
      | O =>
          if prefix sep s
          then cur :: split_go sep (String.length sep - 1) "" s'
          else split_go sep 0 (cur ++ String c "") s'
      end
  end.

Definition split (s sep : string) : list string := split_go sep 0 "" s.

(** [xs[i]]: [undefined] past the end. *)
Definition at_index (xs : list string) (i : nat) : option string :=
  nth_error xs i.

Definition lower_char (c : ascii) : ascii :=
  let n := nat_of_ascii c in
  if ((65 <=? n) && (n <=? 90))%nat then ascii_of_nat (n + 32) else c.

Definition upper_char (c : ascii) : ascii :=
  let n := nat_of_ascii c in
  if ((97 <=? n) && (n <=? 122))%nat then ascii_of_nat (n - 32) else c.

Fixpoint map_chars (f : ascii -> ascii) (s : string) : string :=
  match s with
  | EmptyString => EmptyString
  | String c s' => String (f c) (map_chars f s')
  end.

Definition toLowerCase : string -> string := map_chars lower_char.
Definition toUpperCase : string -> string := map_chars upper_char.

(** The white space and line terminators that [trim] removes, each as
    the bytes of its encoding: TAB, LF, VT, FF, CR, SP, U+00A0, U+1680,
    U+2000 to U+200A, U+2028, U+2029, U+202F, U+205F, U+3000, U+FEFF. *)
Definition bytes (l : list nat) : string :=
  string_of_list_ascii (map ascii_of_nat l).

Definition whitespace : list string :=
  map bytes
    (([[9]; [10]; [11]; [12]; [13]; [32]; [194; 160]; [225; 154; 128]]
     ++ map (fun k => [226; 128; 128 + k]) (seq 0 11)
     ++ [[226; 128; 168]; [226; 128; 169]; [226; 128; 175];
         [226; 129; 159]; [227; 128; 128]; [239; 187; 191]])%list).

(** Removes leading units found in [ws]; [fuel] bounds the number of
    units removed and [length s] is always enough. *)
Fixpoint strip_leading (ws : list string) (fuel : nat) (s : string) : string :=
  match fuel with
  | O => s
  | S fuel' =>
      match find (fun w => prefix w s) ws with
      | Some w => strip_leading ws fuel' (drop (String.length w) s)
      | None => s
      end
  end.

Definition trimStart (s : string) : string :=
  strip_leading whitespace (String.length s) s.

Definition trimEnd (s : string) : string :=
  rev (strip_leading (map rev whitespace) (String.length s) (rev s)).

Definition trim (s : string) : string := trimEnd (trimStart s).

(** [s.replace(/pat\n?/g, "")] for a literal, non-empty [pat]: every
    match of [pat], together with a line feed right after it, is
    removed, scanning from the left.  [skip] counts the bytes of the
    current match still to pass over, [nl] tells that a match has just
    ended. *)
Fixpoint remove_go (pat : string) (skip : nat) (nl : bool) (s : string)
  : string :=
  match s with
  | EmptyString => EmptyString
  | String c s' =>
      match skip with
      | S k => remove_go pat k true s'
      | O =>
          if nl && Ascii.eqb c LF then remove_go pat 0 false s'
          else if prefix pat s then remove_go pat (String.length pat - 1) true s'
          else String c (remove_go pat 0 false s')
      end
  end.

Definition remove_with_newline (pat s : string) : string :=
  remove_go pat 0 false s.

(** [/^[a-zA-Z0-9_]+$/.test(s)] *)
Definition word_char (c : ascii) : bool :=
  let n := nat_of_ascii c in
  (((97 <=? n) && (n <=? 122)) || ((65 <=? n) && (n <=? 90))
   || ((48 <=? n) && (n <=? 57)) || (n =? 95))%nat.

Fixpoint all_chars (p : ascii -> bool) (s : string) : bool :=
  match s with
  | EmptyString => true
  | String c s' => p c && all_chars p s'
  end.

Definition is_word (s : string) : bool :=
  negb (s =? "") && all_chars word_char s.

End JsString.
Import JsString.

(** ** The reply of the model (lines 338 to 353) *)

Record TranslationResult : Type := mkTranslation {
  tr_sql : string;
  tr_explanation : string;
  tr_warning : string
}.

(** [x?.f()]: the call is skipped on [undefined]. *)
Definition chain {A B : Type} (x : option A) (f : A -> option B) : option B :=
  match x with
  | Some a => f a
  | None => None
  end.

(** [x || d] for an optional text [x]. *)
Definition or_else (x : option string) (d : string) : string :=
  match x with
  | Some s => if s =? "" then d else s
  | None => d
  end.

Definition SQL_QUERY : string := "SQL_QUERY:".
Definition BUSINESS_EXPLANATION : string := "BUSINESS_EXPLANATION:".
Definition WARNING : string := "WARNING:".
Definition no_explanation : string := "No explanation provided".

Definition extract_sql (content : string) : string :=
  let sql :=
    or_else
      (chain (chain (chain (at_index (split content SQL_QUERY) 1)
                       (fun s => at_index (split s BUSINESS_EXPLANATION) 0))
                (fun s => at_index (split s WARNING) 0))
         (fun s => Some (trim s)))
      "" in
  trim (remove_with_newline "```" (remove_with_newline "```sql" sql)).

Definition extract_explanation (content : string) : string :=
  or_else
    (chain (chain (at_index (split content BUSINESS_EXPLANATION) 1)
              (fun s => at_index (split s WARNING) 0))
       (fun s => Some (trim s)))
    no_explanation.

Definition extract_warning (content : string) : string :=
  or_else
    (chain (at_index (split content WARNING) 1) (fun s => Some (trim s)))
    "".

Definition parse_reply (content : string) : TranslationResult :=
  mkTranslation (extract_sql content) (extract_explanation content)
    (extract_warning content).

Definition well_formed_reply : string :=
"SQL_QUERY:
SELECT 1

BUSINESS_EXPLANATION:
ok

WARNING:
".

(** ** Destructive-operation check (lines 355 to 362) *)

Definition destructive_keywords : list string :=
  ["delete"; "drop"; "truncate"; "update"].

Definition caution : string :=
  "⚠️ This query will modify or delete data. Review carefully before executing.".

Definition isDestructive (sql : string) : bool :=
  let sqlLower := toLowerCase sql in
  includes sqlLower "delete" || includes sqlLower "drop"
  || includes sqlLower "truncate" || includes sqlLower "update".

(** The warning after the check: [if (isDestructive && !warning) warning = ...]. *)
Definition classify (sql warning : string) : string :=
  if isDestructive sql && (warning =? "") then caution else warning.

(** ** Responses, store results and the calls of a handler *)

Record response : Type := mkResponse {
  status : nat;
  body : value
}.

(** [res.json(v)] and [res.status(code).json({ error: message })]. *)
Definition json (v : value) : response := mkResponse 200 v.
Definition error (code : nat) (message : string) : response :=
  mkResponse code (VObj [("error", VStr message)]).

(** What the driver hands to a callback: the rows of a row-returning
    statement (an array) or the header of any other one. *)
Inductive db_result : Type :=
| Rows (rows : list value)
| Header (affectedRows : nat).

(** [Array.isArray(results) ? results : []] *)
Definition rows_of (results : db_result) : list value :=
  match results with
  | Rows rows => rows
  | Header _ => []
  end.

(** [results.affectedRows || 0] *)
Definition affected_of (results : db_result) : nat :=
  match results with
  | Rows _ => 0
  | Header n => n
  end.

Record Column : Type := mkColumn {
  COLUMN_NAME : string;
  DATA_TYPE : string
}.

(** A callback's [(err, result)], a promise settled: [Rejected] carries
    [err.message]. *)
Inductive outcome (A : Type) : Type :=
| Resolved (a : A)
| Rejected (message : string).
Arguments Rejected {A} message.

(** A handler: the calls it makes to its collaborators, each with the
    continuation that receives the outcome.  [GetSchema] is the catalog
    query of [getSchema] (lines 48 to 60), [Complete] the completion
    request of line 329 with its system and user messages, [DbQuery] a
    [db.query(sql, params, callback)] ([None] when the call passes no
    parameter list).  The outcome of [Complete] is the content of the
    first choice, or the message of what the request, or the reading of
    its reply, throws into the [catch] of the handler. *)
Inductive io (A : Type) : Type :=
| Ret (a : A)
| GetSchema (tableName : string) (k : outcome (list Column) -> io A)
| Complete (system user : string) (k : outcome string -> io A)
| DbQuery (sql : string) (params : option (list value))
    (k : outcome db_result -> io A).
Arguments Ret {A} a.
Arguments GetSchema {A} tableName k.
Arguments Complete {A} system user k.
Arguments DbQuery {A} sql params k.

Fixpoint bind {A B : Type} (m : io A) (f : A -> io B) : io B :=
  match m with
  | Ret a => f a
  | GetSchema t k => GetSchema t (fun r => bind (k r) f)
  | Complete sy us k => Complete sy us (fun r => bind (k r) f)
  | DbQuery q ps k => DbQuery q ps (fun r => bind (k r) f)
  end.

Declare Scope io_scope.
Delimit Scope io_scope with io.
Notation "x <- m ;; k" := (bind m (fun x => k))
  (at level 61, m at next level, right associativity) : io_scope.

(** A call made, with the outcome it got. *)
Inductive event : Type :=
| SchemaLookup (tableName : string) (reply : outcome (list Column))
| ModelCall (system user : string) (reply : outcome string)
| StoreCall (sql : string) (params : option (list value))
    (reply : outcome db_result).

(** The collaborators: each answers a call from its current state. *)
Record world (S : Type) : Type := mkWorld {
  catalog : S -> string -> outcome (list Column) * S;
  model : S -> string -> string -> outcome string * S;
  store : S -> string -> option (list value) -> outcome db_result * S
}.

Fixpoint run {S A : Type} (w : world S) (s : S) (p : io A)
  : A * list event * S :=
  match p with
  | Ret a => (a, [], s)
  | GetSchema t k =>
      let (r, s1) := catalog w s t in
      let '(a, tr, s2) := run w s1 (k r) in
      (a, SchemaLookup t r :: tr, s2)
  | Complete sy us k =>
      let (r, s1) := model w s sy us in
      let '(a, tr, s2) := run w s1 (k r) in
      (a, ModelCall sy us r :: tr, s2)
  | DbQuery q ps k =>
      let (r, s1) := store w s q ps in
      let '(a, tr, s2) := run w s1 (k r) in
      (a, StoreCall q ps r :: tr, s2)
  end.

Definition answer {S A : Type} (w : world S) (s : S) (p : io A) : A :=
  fst (fst (run w s p)).
Definition calls {S A : Type} (w : world S) (s : S) (p : io A) : list event :=
  snd (fst (run w s p)).

Definition join (sep : string) (xs : list string) : string :=
  String.concat sep xs.

(** ** Upload: the check of the table name (lines 182 to 191) *)

(** [/^[a-zA-Z0-9_]+$/.test(tableName)], the test that [/upload] runs
    before it touches the store. *)
Definition valid_table_name (tableName : string) : bool := is_word tableName.

(** ** CRUD operations (lines 509 to 586) *)

Module Crud.

(** [req.body] of [/crud].  [data] is absent or an object, given by its
    entries in the order of [Object.keys].  The other fields are absent
    or texts: a request whose [operation] is a truthy value of another
    type, on which [toUpperCase] throws and which the [catch] of lines
    582 to 585 answers with status 500 and no call, is not in this
    record. *)
Record Request : Type := mkRequest {
  operation : option string;
  tableName : option string;
  data : option (list (string * value));
  where_ : option string
}.

Definition keys (o : list (string * value)) : list string := map fst o.
Definition values (o : list (string * value)) : list value := map snd o.

(** [Object.entries(data).flat()] *)
Definition flat_entries (o : list (string * value)) : list value :=
  flat_map (fun e => [VStr (fst e); snd e]) o.

(** [!data || Object.keys(data).length === 0] *)
Definition no_data (data : option (list (string * value))) : bool :=
  match data with
  | None => true
  | Some o => Nat.eqb (List.length (keys o)) 0
  end.

Definition entries_of (data : option (list (string * value)))
  : list (string * value) :=
  match data with
  | None => []
  | Some o => o
  end.

(** The outcome of the [switch]: an early [return res.status(400)...]
    or the statement and its parameters. *)
Inductive built : Type :=
| Refused (r : response)
| Statement (sql : string) (params : list value).

Definition build (operation tableName : string)
    (data : option (list (string * value))) (where_ : option string)
  : built :=
  let op := toUpperCase operation in
  if op =? "INSERT" then
    if no_data data then Refused (error 400 "Data required for INSERT")
    else
      let columns := keys (entries_of data) in
      let vals := values (entries_of data) in
      let placeholders := join "," (map (fun _ => "?") columns) in
      Statement
        ("INSERT INTO ?? (" ++ join "," (map (fun _ => "??") columns)
         ++ ") VALUES (" ++ placeholders ++ ")")
        (VStr tableName :: (map VStr columns ++ vals)%list)
  else if op =? "UPDATE" then
    if no_data data then Refused (error 400 "Data required for UPDATE")
    else if negb (truthy where_)
    then Refused (error 400 "WHERE clause required for UPDATE")
    else
      let setClauses := map (fun _ => "?? = ?") (keys (entries_of data)) in
      Statement
        ("UPDATE ?? SET " ++ join ", " setClauses ++ " WHERE "
         ++ template where_)
        (VStr tableName :: flat_entries (entries_of data))
  else if op =? "DELETE" then
    if negb (truthy where_)
    then Refused (error 400 "WHERE clause required for DELETE")
    else
      Statement ("DELETE FROM ?? WHERE " ++ template where_)
        [VStr tableName]
  else if op =? "TRUNCATE" then
    Statement "TRUNCATE TABLE ??" [VStr tableName]
  else if op =? "DROP" then
    Statement "DROP TABLE IF EXISTS ??" [VStr tableName]
  else Refused (error 400 ("Unsupported operation: " ++ operation)).

(** The callback of [db.query(sql, params, ...)]. *)
Definition reply (operation : string) (r : outcome db_result) : response :=
  match r with
  | Rejected message => error 400 message
  | Resolved result =>
      json (VObj [("success", VBool true);
                  ("operation", VStr operation);
                  ("affectedRows", num_of_nat (affected_of result));
                  ("message", VStr (operation ++ " completed successfully"))])
  end.

Definition crud (req : Request) : io response :=
  if negb (truthy (operation req)) || negb (truthy (tableName req))
  then Ret (error 400 "Operation and table name required")
  else
    let op := template (operation req) in
    match build op (template (tableName req)) (data req) (where_ req) with
    | Refused r => Ret r
    | Statement sql params =>
        DbQuery sql (Some params) (fun r => Ret (reply op r))
    end.

End Crud.

(** ** Raw SQL (lines 589 to 616) *)

Module Execute.

Record Request : Type := mkRequest {
  sql : option string;
  requireConfirmation : option value
}.

Definition reply (r : outcome db_result) : response :=
  match r with
  | Rejected message => error 400 message
  | Resolved results =>
      json (VObj [("results", VArr (rows_of results));
                  ("rowCount", num_of_nat (List.length (rows_of results)));
                  ("affectedRows", num_of_nat (affected_of results))])
  end.

Definition execute (req : Request) : io response :=
  if negb (truthy (sql req)) then Ret (error 400 "SQL query required")
  else DbQuery (template (sql req)) None (fun r => Ret (reply r)).

End Execute.

(** ** Ask (lines 271 to 387) *)

Module Ask.

(** [req.body.tables]: absent, one name, or an array of names. *)
Inductive tables_field : Type :=
| Absent
| One (name : string)
| Many (names : list string).

Record Request : Type := mkRequest {
  tables : tables_field;
  question : option string;
  table : option string
}.

(** [tables ? ... : ...]: an array is truthy, a text is when not empty. *)
Definition given (t : tables_field) : bool :=
  match t with
  | Absent => false
  | One name => truthy (Some name)
  | Many _ => true
  end.

(** [Array.isArray(tables) ? tables : [tables]] *)
Definition as_array (t : tables_field) : list string :=
  match t with
  | Many names => names
  | One name => [name]
  | Absent => []
  end.

Definition tableList (req : Request) : list string :=
  if given (tables req) then as_array (tables req)
  else if truthy (table req) then [template (table req)] else [].

(** [formatSchema] (lines 63 to 67) *)
Definition formatSchema (schema : list Column) (tableName : string) : string :=
  tableName ++ "("
  ++ join ", " (map (fun col => COLUMN_NAME col ++ " " ++ DATA_TYPE col) schema)
  ++ ")".

(** [tableList.map(table => getSchema(table))]: every lookup is issued,
    the outcomes are kept in the order of the names. *)
Fixpoint lookups (names : list string) : io (list (outcome (list Column))) :=
  match names with
  | [] => Ret []
  | name :: rest =>
      GetSchema name (fun r => rs <- lookups rest ;; Ret (r :: rs))%io
  end.

(** [Promise.all]: the values in order, or a rejection (the first one in
    the order of the list; no property below depends on which). *)
Fixpoint all {A : Type} (rs : list (outcome A)) : outcome (list A) :=
  match rs with
  | [] => Resolved []
  | Rejected message :: _ => Rejected message
  | Resolved a :: rest =>
      match all rest with
      | Resolved xs => Resolved (a :: xs)
      | Rejected message => Rejected message
      end
  end.

Definition not_found (table : string) : string :=
  "Table '" ++ table ++ "' not found".

(** The callback of [tableList.map((table, idx) => ...)] from index
    [idx] on: [inl] is the message of the error it throws. *)
Fixpoint format_from (idx : nat) (names : list string)
    (schemasResults : list (list Column)) : string + list string :=
  match names with
  | [] => inr []
  | table :: rest =>
      match nth_error schemasResults idx with
      | None => inl (not_found table)
      | Some schema =>
          if Nat.eqb (List.length schema) 0 then inl (not_found table)
          else
            match format_from (S idx) rest schemasResults with
            | inl message => inl message
            | inr texts => inr (formatSchema schema table :: texts)
            end
      end
  end.

Definition schemasText (names : list string)
    (schemasResults : list (list Column)) : string + string :=
  match format_from 0 names schemasResults with
  | inl message => inl message
  | inr texts => inr (join (String LF "") texts)
  end.

Definition system_message : string :=
  "You are an expert MySQL SQL generator. Generate only valid MySQL queries.".

Definition prompt (schemasText question : string) : string :=
"
You are an expert MySQL SQL generator.

Rules:
- Generate ONLY SQL code, no explanations in the query
- Use ONLY the schemas provided below
- Use MySQL syntax
- For multi-table queries, use JOIN, UNION, or subqueries as appropriate
- Do NOT add LIMIT unless explicitly requested
- Do NOT hallucinate columns or tables
- Generate SELECT queries for read operations
- Generate INSERT/UPDATE/DELETE only if explicitly requested
- Warn about destructive operations

Available Tables and Schemas:
" ++ schemasText ++ "

Question:
" ++ question ++ "

Output format:
SQL_QUERY:
<sql>

BUSINESS_EXPLANATION:
<explanation>

WARNING:
<warning if destructive operation>
".

(** The callback of [db.query(sql, ...)]. *)
Definition reply (t : TranslationResult) (r : outcome db_result) : response :=
  match r with
  | Rejected message => error 400 message
  | Resolved results =>
      json (VObj [("sql", VStr (tr_sql t));
                  ("results", VArr (rows_of results));
                  ("explanation", VStr (tr_explanation t));
                  ("warning", VStr (tr_warning t));
                  ("rowCount", num_of_nat (List.length (rows_of results)));
                  ("affectedRows", num_of_nat (affected_of results))])
  end.

(** Lines 340 to 362: the three fields of the reply, then the check
    for destructive statements. *)
Definition translate (content : string) : TranslationResult :=
  let parsed := parse_reply content in
  mkTranslation (tr_sql parsed) (tr_explanation parsed)
    (classify (tr_sql parsed) (tr_warning parsed)).

Definition validation_message : string :=
  "At least one table and question required".

Definition ask (req : Request) : io response :=
  let tableList := tableList req in
  if Nat.eqb (List.length tableList) 0 || negb (truthy (question req))
  then Ret (error 400 validation_message)
  else
    (schemasPromises <- lookups tableList ;;
      match all schemasPromises with
      | Rejected message => Ret (error 500 message)
      | Resolved schemasResults =>
          match schemasText tableList schemasResults with
          | inl message => Ret (error 500 message)
          | inr text =>
              Complete system_message (prompt text (template (question req)))
                (fun r =>
                   match r with
                   | Rejected message => Ret (error 500 message)
                   | Resolved content =>
                       let t := translate content in
                       DbQuery (tr_sql t) None (fun r => Ret (reply t r))
                   end)
          end
      end)%io.

End Ask.

(** ** Upload (lines 175 to 268) *)

Module Upload.

(** [req.file], as multer leaves it. *)
Record File : Type := mkFile {
  path : string;
  originalname : option string
}.

(** [req.body.tableName] and [req.file]. *)
Record Request : Type := mkRequest {
  tableName : option string;
  file : option File
}.

(** A row of a parsed file: an object, given by its entries in the order
    of [Object.keys] (csv-parser and [sheet_to_json] yield objects; a
    JSON file is taken to hold an object or an array of objects: a
    [null] among its rows, on which [Object.keys] or [row[col]] throws,
    is not in this type). *)
Definition row : Type := list (string * value).

Inductive parser : Type := CSV | Excel | JSON.

(** The calls of the handler: [fs.unlinkSync], [fs.existsSync], one of
    the three parsers on the stored file, and [db.query] with a parameter
    list ([None] in the list is [undefined]).  A removal is taken to
    succeed; a parser and the store may fail. *)
Inductive job (A : Type) : Type :=
| Done (a : A)
| Unlink (filePath : string) (k : job A)
| Exists (filePath : string) (k : bool -> job A)
| Parse (p : parser) (filePath : string) (k : outcome (list row) -> job A)
| Query (sql : string) (params : list (option value))
    (k : outcome unit -> job A).
Arguments Done {A} a.
Arguments Unlink {A} filePath k.
Arguments Exists {A} filePath k.
Arguments Parse {A} p filePath k.
Arguments Query {A} sql params k.

Inductive step : Type :=
| Unlinked (filePath : string)
| Checked (filePath : string) (found : bool)
| Parsed (p : parser) (filePath : string) (reply : outcome (list row))
| Queried (sql : string) (params : list (option value)) (reply : outcome unit).

Record host (S : Type) : Type := mkHost {
  exists_file : S -> string -> bool * S;
  remove_file : S -> string -> S;
  parse_file : S -> parser -> string -> outcome (list row) * S;
  query : S -> string -> list (option value) -> outcome unit * S
}.

Fixpoint play {S A : Type} (h : host S) (s : S) (j : job A)
  : A * list step * S :=
  match j with
  | Done a => (a, [], s)
  | Unlink f k =>
      let '(a, tr, s2) := play h (remove_file h s f) k in
      (a, Unlinked f :: tr, s2)
  | Exists f k =>
      let (b, s1) := exists_file h s f in
      let '(a, tr, s2) := play h s1 (k b) in
      (a, Checked f b :: tr, s2)
  | Parse p f k =>
      let (r, s1) := parse_file h s p f in
      let '(a, tr, s2) := play h s1 (k r) in
      (a, Parsed p f r :: tr, s2)
  | Query q ps k =>
      let (r, s1) := query h s q ps in
      let '(a, tr, s2) := play h s1 (k r) in
      (a, Queried q ps r :: tr, s2)
  end.

Definition result {S A : Type} (h : host S) (s : S) (j : job A) : A :=
  fst (fst (play h s j)).
Definition steps {S A : Type} (h : host S) (s : S) (j : job A) : list step :=
  snd (fst (play h s j)).

(** [xs.pop()] of a list that is not empty, [undefined] otherwise. *)
Definition pop (xs : list string) : option string :=
  match xs with
  | [] => None
  | x :: rest => Some (last rest x)
  end.

(** [req.file?.originalname?.split(".").pop().toLowerCase()] *)
Definition fileExt (req : Request) : option string :=
  chain (chain (file req) originalname)
    (fun name => option_map toLowerCase (pop (split name "."))).

(** [req.file?.path] *)
Definition filePath (req : Request) : option string :=
  option_map path (file req).

Definition parser_of (ext : option string) : option parser :=
  match ext with
  | Some e =>
      if e =? "csv" then Some CSV
      else if (e =? "xlsx") || (e =? "xls") then Some Excel
      else if e =? "json" then Some JSON
      else None
  | None => None
  end.

(** [row[col]] among the row's own entries.  For a column that the row
    lacks and that names a property of [Object.prototype]
    ([constructor], [toString], ...) JavaScript yields the inherited
    property instead of [undefined]; a property that depends on the
    values read is stated for rows that have all their columns
    ([rectangular]). *)
Definition cell (r : row) (col : string) : option value :=
  option_map snd (find (fun p => fst p =? col) r).

Definition createTableSQL (columns : list string) : string :=
"
      CREATE TABLE ?? (
        id INT AUTO_INCREMENT PRIMARY KEY,
        " ++ join "," (map (fun _ => "?? VARCHAR(255)") columns) ++ "
      )
    ".

Definition insertSQL (columns : list string) : string :=
  "INSERT INTO ?? (" ++ join "," (map (fun _ => "??") columns)
  ++ ") VALUES (" ++ join "," (map (fun _ => "?") columns) ++ ")".

(** [[tableName, ...columns, ...values]] *)
Definition insert_params (table : string) (columns : list string) (r : row)
  : list (option value) :=
  (Some (VStr table) :: map (fun c => Some (VStr c)) columns
   ++ map (cell r) columns)%list.

(** [rows.map(row => new Promise(...))]: every INSERT is issued, the
    outcomes are kept in order. *)
Fixpoint inserts {A : Type} (table : string) (columns : list string)
    (rows : list row) (k : list (outcome unit) -> job A) : job A :=
  match rows with
  | [] => k []
  | r :: rest =>
      Query (insertSQL columns) (insert_params table columns r)
        (fun o => inserts table columns rest (fun os => k (o :: os)))
  end.

(** The [catch] of the handler. *)
Definition failed (f : string) (message : string) : job response :=
  Exists f (fun found =>
    if found then Unlink f (Done (error 500 message))
    else Done (error 500 message)).

Definition invalid_name (table : string) : string :=
  "Invalid table name: " ++ table
  ++ ". Use only letters, numbers, and underscores.".

Definition created (table : string) (rows : list row) (columns : list string)
  : response :=
  json (VObj [("message", VStr ("Table '" ++ table ++ "' created successfully"));
              ("tableName", VStr table);
              ("rowCount", num_of_nat (List.length rows));
              ("columnCount", num_of_nat (List.length columns));
              ("columns", VArr (map VStr columns))]).

(** The statements, once the rows are there. *)
Definition load (table f : string) (rows : list row) : job response :=
  match rows with
  | [] => Unlink f (Done (error 400 "File is empty"))
  | first :: _ =>
      let columns := map fst first in
      Query "DROP TABLE IF EXISTS ??" [Some (VStr table)] (fun dropped =>
        match dropped with
        | Rejected message => failed f message
        | Resolved _ =>
            Query (createTableSQL columns)
              (Some (VStr table) :: map (fun c => Some (VStr c)) columns)
              (fun made =>
                 match made with
                 | Rejected message => failed f message
                 | Resolved _ =>
                     inserts table columns rows (fun outcomes =>
                       match Ask.all outcomes with
                       | Rejected message => failed f message
                       | Resolved _ =>
                           Unlink f (Done (created table rows columns))
                       end)
                 end)
        end)
  end.

Definition upload (req : Request) : job response :=
  if negb (truthy (tableName req)) || negb (truthy (filePath req))
  then Done (error 400 "Table name and file required")
  else
    let table := template (tableName req) in
    let f := template (filePath req) in
    if negb (valid_table_name table)
    then Unlink f (Done (error 400 (invalid_name table)))
    else
      match parser_of (fileExt req) with
      | None => Unlink f (Done (error 400 "Unsupported file format"))
      | Some p =>
          Parse p f (fun parsed =>
            match parsed with
            | Rejected message => failed f message
            | Resolved rows => load table f rows
            end)
      end.

End Upload.

(** ** Download as CSV: a text cell (line 479) *)

Module Download.

Definition DQ : ascii := "034"%char.

(** [val.replace] of line 479: every quote becomes two quotes. *)
Fixpoint double_quotes (val : string) : string :=
  match val with
  | EmptyString => EmptyString
  | String c rest =>
      if Ascii.eqb c DQ then String DQ (String DQ (double_quotes rest))
      else String c (double_quotes rest)
  end.

(** The cell of a value that is a string: the text between two quotes,
    with every quote inside written twice. *)
Definition quote_cell (val : string) : string :=
  String DQ (double_quotes val ++ String DQ "").

End Download.

(** ** Observations and scenarios *)

(** A handler that answers at once with a client error: nothing is asked
    of the store or of the model. *)
Definition refuses (p : io response) : Prop :=
  exists message, p = Ret (error 400 message).

(** The calls of the lookups: one per name, in order. *)
Definition lookup_events (names : list string)
    (rs : list (outcome (list Column))) : list event :=
  map (fun p => SchemaLookup (fst p) (snd p)) (combine names rs).

(** The INSERT of the scenario of section 8. *)
Definition insert_order : Crud.Request :=
  Crud.mkRequest (Some "INSERT") (Some "orders")
    (Some [("id", num_of_nat 1); ("total", VNum (19 # 2))]) None.

(** A table name that [/upload] would turn down. *)
Definition unchecked_name : string := "orders; DROP TABLE users".

(** A catalog that knows the table [orders] only. *)
Definition orders_only : world unit :=
  mkWorld
    (fun _ t =>
       (Resolved (if t =? "orders" then [mkColumn "id" "int"] else []), tt))
    (fun _ _ _ => (Rejected "no model", tt))
    (fun _ _ _ => (Rejected "no store", tt)).

(** [body.name] of a JSON object: [None] when the key is missing. *)
Definition field (name : string) (v : value) : option value :=
  match v with
  | VObj props =>
      option_map snd (find (fun p => fst p =? name) props)
  | _ => None
  end.

(** The runs of [Ask.ask], by the point the handler stops at: the
    answer and the calls made up to there. *)
Inductive ask_stops (req : Ask.Request) : response -> list event -> Prop :=
| stops_at_validation :
    ask_stops req (error 400 Ask.validation_message) []
| stops_at_rejected_lookup rs message :
    List.length rs = List.length (Ask.tableList req) ->
    Ask.all rs = Rejected message ->
    ask_stops req (error 500 message)
      (lookup_events (Ask.tableList req) rs)
| stops_at_missing_table schemas message :
    List.length schemas = List.length (Ask.tableList req) ->
    Ask.schemasText (Ask.tableList req) schemas = inl message ->
    ask_stops req (error 500 message)
      (lookup_events (Ask.tableList req) (map (@Resolved _) schemas))
| stops_at_model schemas text message :
    List.length schemas = List.length (Ask.tableList req) ->
    Ask.schemasText (Ask.tableList req) schemas = inr text ->
    ask_stops req (error 500 message)
      (lookup_events (Ask.tableList req) (map (@Resolved _) schemas)
       ++ [ModelCall Ask.system_message
             (Ask.prompt text (template (Ask.question req)))
             (Rejected message)])%list
| stops_at_store schemas text content r :
    List.length schemas = List.length (Ask.tableList req) ->
    Ask.schemasText (Ask.tableList req) schemas = inr text ->
    ask_stops req (Ask.reply (Ask.translate content) r)
      (lookup_events (Ask.tableList req) (map (@Resolved _) schemas)
       ++ [ModelCall Ask.system_message
             (Ask.prompt text (template (Ask.question req)))
             (Resolved content);
           StoreCall (tr_sql (Ask.translate content)) None r])%list.

(** The opening and closing mark of a code block. *)
Definition fence : string := "```".

(** No white space at either end. *)
Definition trimmed (s : string) : Prop :=
  forall u, In u whitespace ->
            prefix u s = false /\ prefix (rev u) (rev s) = false.

(** A world for the examples: every table has the one column [id], the
    model answers with a DELETE in the format asked for and leaves the
    warning empty, the store reports three affected rows. *)
Definition delete_reply : string :=
"SQL_QUERY:
```sql
DELETE FROM orders
```

BUSINESS_EXPLANATION:
Removes every order.

WARNING:
".

Definition obliging : world unit :=
  mkWorld
    (fun _ _ => (Resolved [mkColumn "id" "int"], tt))
    (fun _ _ _ => (Resolved delete_reply, tt))
    (fun _ _ _ => (Resolved (Header 3), tt)).

Definition clear_orders : Ask.Request :=
  Ask.mkRequest (Ask.One "orders") (Some "remove all orders") None.

(** The steps of the [catch] of [Upload.upload]. *)
Definition cleanup (f : string) (found : bool) : list Upload.step :=
  Upload.Checked f found :: (if found then [Upload.Unlinked f] else []).

(** The INSERT steps of the rows, with their outcomes. *)
Definition insert_steps (table : string) (columns : list string)
    (rows : list Upload.row) (outcomes : list (outcome unit))
  : list Upload.step :=
  map (fun p => Upload.Queried (Upload.insertSQL columns)
                  (Upload.insert_params table columns (fst p)) (snd p))
    (combine rows outcomes).

Definition drop_step (table : string) (r : outcome unit) : Upload.step :=
  Upload.Queried "DROP TABLE IF EXISTS ??" [Some (VStr table)] r.

Definition create_step (table : string) (columns : list string)
    (r : outcome unit) : Upload.step :=
  Upload.Queried (Upload.createTableSQL columns)
    (Some (VStr table) :: map (fun c => Some (VStr c)) columns) r.

(** The runs of [Upload.upload] that pass the first check, for the table
    name [table] and the stored file [f], by the point the handler stops
    at. *)
Inductive upload_stops (req : Upload.Request) (table f : string)
  : response -> list Upload.step -> Prop :=
| stops_at_name :
    valid_table_name table = false ->
    upload_stops req table f (error 400 (Upload.invalid_name table))
      [Upload.Unlinked f]
| stops_at_format :
    valid_table_name table = true ->
    Upload.parser_of (Upload.fileExt req) = None ->
    upload_stops req table f (error 400 "Unsupported file format")
      [Upload.Unlinked f]
| stops_at_parser p message found :
    valid_table_name table = true ->
    Upload.parser_of (Upload.fileExt req) = Some p ->
    upload_stops req table f (error 500 message)
      (Upload.Parsed p f (Rejected message) :: cleanup f found)
| stops_at_empty_file p :
    valid_table_name table = true ->
    Upload.parser_of (Upload.fileExt req) = Some p ->
    upload_stops req table f (error 400 "File is empty")
      [Upload.Parsed p f (Resolved []); Upload.Unlinked f]
| stops_at_drop p first rest message found :
    valid_table_name table = true ->
    Upload.parser_of (Upload.fileExt req) = Some p ->
    upload_stops req table f (error 500 message)
      (Upload.Parsed p f (Resolved (first :: rest))
       :: drop_step table (Rejected message) :: cleanup f found)
| stops_at_create p first rest u message found :
    valid_table_name table = true ->
    Upload.parser_of (Upload.fileExt req) = Some p ->
    upload_stops req table f (error 500 message)
      (Upload.Parsed p f (Resolved (first :: rest))
       :: drop_step table (Resolved u)
       :: create_step table (map fst first) (Rejected message)
       :: cleanup f found)
| stops_at_insert p first rest u u' outcomes message found :
    valid_table_name table = true ->
    Upload.parser_of (Upload.fileExt req) = Some p ->
    List.length outcomes = List.length (first :: rest) ->
    Ask.all outcomes = Rejected message ->
    upload_stops req table f (error 500 message)
      (Upload.Parsed p f (Resolved (first :: rest))
       :: drop_step table (Resolved u)
       :: create_step table (map fst first) (Resolved u')
       :: insert_steps table (map fst first) (first :: rest) outcomes
       ++ cleanup f found)%list
| stops_at_end p first rest u u' done :
    valid_table_name table = true ->
    Upload.parser_of (Upload.fileExt req) = Some p ->
    List.length done = List.length (first :: rest) ->
    upload_stops req table f
      (Upload.created table (first :: rest) (map fst first))
      (Upload.Parsed p f (Resolved (first :: rest))
       :: drop_step table (Resolved u)
       :: create_step table (map fst first) (Resolved u')
       :: insert_steps table (map fst first) (first :: rest)
            (map (@Resolved unit) done)
       ++ [Upload.Unlinked f])%list.

(** Scenarios for the upload: a stored CSV file with two rows, and a host
    that parses it and whose store accepts every statement. *)
Definition two_rows : list Upload.row :=
  [[("name", VStr "ann"); ("age", VStr "31")];
   [("name", VStr "bob")]].

Definition people_csv : Upload.Request :=
  Upload.mkRequest (Some "people")
    (Some (Upload.mkFile "uploads/f3a9" (Some "People.2024.CSV"))).

Definition willing : Upload.host unit :=
  Upload.mkHost
    (fun _ _ => (true, tt))
    (fun _ _ => tt)
    (fun _ _ _ => (Resolved two_rows, tt))
    (fun _ _ _ => (Resolved tt, tt)).

(** A host whose store rejects every statement. *)
Definition unwilling : Upload.host unit :=
  Upload.mkHost
    (fun _ _ => (true, tt))
    (fun _ _ => tt)
    (fun _ _ _ => (Resolved two_rows, tt))
    (fun _ _ _ => (Rejected "read only", tt)).

(** A parser or a statement failed with [message]. *)
Definition failed_step (message : string) (st : Upload.step) : Prop :=
  (exists p f, st = Upload.Parsed p f (Rejected message)) \/
  (exists q ps, st = Upload.Queried q ps (Rejected message)).

(** The output format the prompt asks for, with its three places filled. *)
Definition format_reply (sql explanation warning : string) : string :=
  SQL_QUERY ++ String LF sql ++ String LF (String LF BUSINESS_EXPLANATION)
  ++ String LF explanation ++ String LF (String LF WARNING)
  ++ String LF warning.

(** A text that holds none of the three markers. *)
Definition plain (s : string) : Prop :=
  includes s SQL_QUERY = false /\ includes s BUSINESS_EXPLANATION = false /\
  includes s WARNING = false.

(** A text without the character [c]. *)
Definition without (c : ascii) (s : string) : bool :=
  all_chars (fun d => negb (Ascii.eqb d c)) s.

(** A catalog that has no column for [orders] and fails on every other
    table, and a request that names [orders] and [customers]. *)
Definition orders_empty_customers_down : world unit :=
  mkWorld
    (fun _ t =>
       (if t =? "orders" then Resolved [] else Rejected "connection lost", tt))
    (fun _ _ _ => (Rejected "no model", tt))
    (fun _ _ _ => (Rejected "no store", tt)).

Definition two_tables : Ask.Request :=
  Ask.mkRequest (Ask.Many ["orders"; "customers"]) (Some "who bought most?")
    None.

(** A text of ASCII characters only.  On such a text the case
    conversions of JavaScript are the ones of [JsString]. *)
Definition ascii_text (s : string) : bool :=
  all_chars (fun c => Nat.ltb (nat_of_ascii c) 128) s.

(** Every row has every column of the first row. *)
Definition rectangular (rows : list Upload.row) : Prop :=
  forall r c,
    In r rows -> In c (map fst (hd [] rows)) -> Upload.cell r c <> None.

(** A host whose parser yields two rows with the same two columns and
    whose store accepts every statement. *)
Definition tidy_rows : list Upload.row :=
  [[("name", VStr "ann"); ("age", VStr "31")];
   [("name", VStr "bob"); ("age", VStr "27")]].

Definition tidy : Upload.host unit :=
  Upload.mkHost
    (fun _ _ => (true, tt))
    (fun _ _ => tt)
    (fun _ _ _ => (Resolved tidy_rows, tt))
    (fun _ _ _ => (Resolved tt, tt)).

(** * Properties *)

(** ** Strings *)

Section StringFacts.

Lemma append_empty_r (s : string) : s ++ "" = s.
Proof. induction s as [|c s IH]; simpl; [reflexivity | now rewrite IH]. Qed.

Lemma append_assoc (a b c : string) : (a ++ b) ++ c = a ++ (b ++ c).
Proof. induction a as [|x a IH]; simpl; [reflexivity | now rewrite IH]. Qed.

Lemma prefix_spec (p s : string) :
  prefix p s = true <-> exists rest, s = p ++ rest.
Proof.
  revert s; induction p as [|a p IH]; intros s; simpl.
  - destruct s; split; intros _; try reflexivity; eexists; reflexivity.
  - destruct s as [|b s]; simpl.
    + split; [discriminate | intros [rest H]; discriminate].
    + destruct (ascii_dec a b) as [->|Hne].
      * rewrite IH. split; intros [rest H]; exists rest.
        -- now rewrite H.
        -- now inversion H.
      * split; [discriminate | intros [rest H]; congruence].
Qed.

(** [includes] decides the occurrence of [sub] inside [s]. *)
Lemma includes_spec (s sub : string) :
  includes s sub = true <-> exists pre post, s = pre ++ sub ++ post.
Proof.
  induction s as [|c s IH].
  - cbn [includes]. rewrite orb_false_r, prefix_spec. split.
    + intros [rest H]. exists "", rest. exact H.
    + intros [pre [post H]]. destruct pre; simpl in H.
      * now exists post.
      * discriminate.
  - cbn [includes]. rewrite orb_true_iff, IH, prefix_spec. split.
    + intros [[rest H] | [pre [post H]]].
      * exists "", rest. exact H.
      * exists (String c pre), post. simpl. now rewrite H.
    + intros [pre [post H]]. destruct pre as [|c' pre]; simpl in H.
      * left. now exists post.
      * right. inversion H. now exists pre, post.
Qed.

Lemma includes_tail (c : ascii) (s sub : string) :
  includes (String c s) sub = false ->
  prefix sub (String c s) = false /\ includes s sub = false.
Proof. cbn [includes]. apply orb_false_iff. Qed.

(** Without an occurrence of the separator the text is the only piece. *)
Lemma split_go_missing (sep s cur : string) :
  includes s sep = false -> split_go sep 0 cur s = [cur ++ s].
Proof.
  revert cur; induction s as [|c s IH]; intros cur H.
  - simpl. now rewrite append_empty_r.
  - apply includes_tail in H as [Hp Hs]. cbn [split_go]. rewrite Hp.
    rewrite (IH _ Hs), append_assoc. reflexivity.
Qed.

Lemma split_missing (s sep : string) :
  includes s sep = false -> split s sep = [s].
Proof. intros H. unfold split. now rewrite split_go_missing. Qed.

Lemma second_piece_missing (s sep : string) :
  includes s sep = false -> at_index (split s sep) 1 = None.
Proof. intros H. now rewrite split_missing. Qed.

Lemma length_drop (n : nat) (s : string) :
  String.length (drop n s) = String.length s - n.
Proof.
  revert s; induction n as [|n IH]; intros [|c s]; simpl; auto with arith.
Qed.

Lemma prefix_length (p s : string) :
  prefix p s = true -> String.length p <= String.length s.
Proof.
  intros [rest ->]%prefix_spec. induction p; simpl; lia.
Qed.

Lemma find_nothing {A : Type} (f : A -> bool) (l : list A) :
  (forall x, In x l -> f x = false) -> find f l = None.
Proof.
  induction l as [|a l IH]; intros H; simpl; [reflexivity|].
  rewrite (H a (or_introl eq_refl)). apply IH. intros x Hx. apply H. now right.
Qed.

(** [strip_leading] has fuel enough: with [length s] or more, no unit
    of [ws] is left at the start of the result. *)
Lemma strip_leading_done (ws : list string) :
  (forall w, In w ws -> w <> "") ->
  forall fuel s,
    String.length s <= fuel ->
    find (fun w => prefix w (strip_leading ws fuel s)) ws = None.
Proof.
  intros NE. induction fuel as [|fuel IH]; intros s L.
  - destruct s; [|simpl in L; lia]. cbn [strip_leading].
    apply find_nothing. intros w Hw. specialize (NE w Hw).
    destruct w; [contradiction | reflexivity].
  - cbn [strip_leading].
    destruct (find (fun w => prefix w s) ws) as [w|] eqn:F; [|exact F].
    apply find_some in F as [Hw Hp]. apply IH.
    rewrite length_drop. apply prefix_length in Hp.
    specialize (NE w Hw). destruct w; [contradiction | simpl in *; lia].
Qed.

Lemma whitespace_not_empty (w : string) : In w whitespace -> w <> "".
Proof.
  intros H E. subst w. vm_compute in H.
  repeat (destruct H as [H|H]; [discriminate|]). exact H.
Qed.

Lemma trimStart_done (s : string) :
  find (fun w => prefix w (trimStart s)) whitespace = None.
Proof.
  apply strip_leading_done; [exact whitespace_not_empty | lia].
Qed.

Lemma rev_onto_spec (s acc : string) : rev_onto s acc = rev s ++ acc.
Proof.
  unfold rev. revert acc; induction s as [|c s IH]; intros acc; simpl.
  - reflexivity.
  - rewrite (IH (String c "")), (IH (String c acc)), append_assoc. reflexivity.
Qed.

Lemma rev_append (a b : string) : rev (a ++ b) = rev b ++ rev a.
Proof.
  induction a as [|c a IH]; simpl.
  - now rewrite append_empty_r.
  - unfold rev at 1 3. simpl. rewrite !rev_onto_spec, IH, append_assoc.
    reflexivity.
Qed.

Lemma rev_involutive (s : string) : rev (rev s) = s.
Proof.
  induction s as [|c s IH]; [reflexivity|].
  unfold rev at 2. simpl. rewrite rev_onto_spec, rev_append, IH. reflexivity.
Qed.

Lemma length_append (a b : string) :
  String.length (a ++ b) = String.length a + String.length b.
Proof. induction a as [|c a IH]; simpl; [reflexivity | now rewrite IH]. Qed.

Lemma length_rev (s : string) : String.length (rev s) = String.length s.
Proof.
  induction s as [|c s IH]; [reflexivity|].
  unfold rev. simpl. rewrite rev_onto_spec, length_append, IH. simpl. lia.
Qed.

(** The same at the other end: no white space is left at the end of
    [trimEnd s], read backwards. *)
Lemma trimEnd_done (s : string) :
  find (fun w => prefix w (rev (trimEnd s))) (map rev whitespace) = None.
Proof.
  unfold trimEnd. rewrite rev_involutive. apply strip_leading_done.
  - intros w [u [<- Hu]]%in_map_iff E.
    apply (whitespace_not_empty Hu). now rewrite <- (rev_involutive u), E.
  - now rewrite length_rev.
Qed.

End StringFacts.

(** The string operations on small inputs. *)

Example split_keeps_empty_pieces : split "a,b,,c" "," = ["a"; "b"; ""; "c"].
Proof. reflexivity. Qed.

Example split_on_the_whole_text : split "abc" "abc" = [""; ""].
Proof. reflexivity. Qed.

Example trim_both_ends :
  trim (bytes [32; 194; 160; 10] ++ "x y" ++ bytes [226; 128; 137; 9]) = "x y".
Proof. reflexivity. Qed.

Example fences_removed :
  extract_sql "SQL_QUERY:
```sql
SELECT 1
```
BUSINESS_EXPLANATION: one" = "SELECT 1".
Proof. vm_compute. reflexivity. Qed.

Example table_names_checked :
  valid_table_name "order_items_2" = true /\ valid_table_name "" = false
  /\ valid_table_name "a-b" = false.
Proof. repeat split. Qed.

(** ** The reply of the model *)

(** C8.  The well-formed reply
    [SQL_QUERY:\nSELECT 1\n\nBUSINESS_EXPLANATION:\nok\n\nWARNING:\n]
    is parsed into the SQL [SELECT 1], the explanation [ok] and an empty
    warning. *)
Theorem parse_well_formed_reply :
  parse_reply well_formed_reply = mkTranslation "SELECT 1" "ok" "".
Proof. vm_compute. reflexivity. Qed.

(** C4, as the code has it.  Parsing is a total function of the reply.  A
    reply without the marker [SQL_QUERY:] gives the empty SQL text and a
    reply without the marker [WARNING:] the empty warning, but a reply
    without the marker [BUSINESS_EXPLANATION:] gives the fixed
    explanation [No explanation provided]. *)
Theorem missing_marker_defaults (content : string) :
  (includes content SQL_QUERY = false ->
   tr_sql (parse_reply content) = "") /\
  (includes content BUSINESS_EXPLANATION = false ->
   tr_explanation (parse_reply content) = "No explanation provided") /\
  (includes content WARNING = false ->
   tr_warning (parse_reply content) = "").
Proof.
  repeat split; intros H; simpl.
  - unfold extract_sql. now rewrite (second_piece_missing _ _ H).
  - unfold extract_explanation. now rewrite (second_piece_missing _ _ H).
  - unfold extract_warning. now rewrite (second_piece_missing _ _ H).
Qed.

Lemma missing_marker_defaults_witness :
  includes "SELECT 1" SQL_QUERY = false /\
  includes "SELECT 1" BUSINESS_EXPLANATION = false /\
  includes "SELECT 1" WARNING = false /\
  tr_sql (parse_reply "SELECT 1") = "" /\
  tr_explanation (parse_reply "SELECT 1") = "No explanation provided" /\
  tr_warning (parse_reply "SELECT 1") = "".
Proof.
  destruct (missing_marker_defaults "SELECT 1") as [Hs [He Hw]].
  assert (S : includes "SELECT 1" SQL_QUERY = false) by reflexivity.
  assert (E : includes "SELECT 1" BUSINESS_EXPLANATION = false) by reflexivity.
  assert (W : includes "SELECT 1" WARNING = false) by reflexivity.
  split; [exact S | split; [exact E | split; [exact W |]]].
  split; [exact (Hs S) | split; [exact (He E) | exact (Hw W)]].
Defined.

(** C4, as stated, fails: the reply [SELECT 1] has no marker
    [BUSINESS_EXPLANATION:], and its explanation is not the empty
    string. *)
Lemma missing_explanation_is_not_empty :
  ~ (includes "SELECT 1" BUSINESS_EXPLANATION = false ->
     tr_explanation (parse_reply "SELECT 1") = "").
Proof. intros H. specialize (H eq_refl). vm_compute in H. discriminate. Qed.

(** ** The destructive-operation check *)

(** C5.  A statement is flagged exactly when its lower-cased text
    contains one of [delete], [drop], [truncate], [update]; a flagged
    statement whose warning is empty gets the fixed caution, and in
    every other case the warning is left as it is. *)
Theorem classifier_contract (sql warning : string) :
  (isDestructive sql = true <->
   exists keyword, In keyword destructive_keywords /\
     exists pre post, toLowerCase sql = pre ++ keyword ++ post) /\
  (isDestructive sql = true -> warning = "" ->
   classify sql warning = caution) /\
  (isDestructive sql = false \/ warning <> "" ->
   classify sql warning = warning).
Proof.
  split; [|split].
  - unfold isDestructive, destructive_keywords. cbv zeta.
    rewrite !orb_true_iff, !includes_spec. split.
    + intros [[[H|H]|H]|H]; eexists; (split; [|exact H]); simpl; tauto.
    + intros [keyword [Hin H]]. simpl in Hin.
      destruct Hin as [<-|[<-|[<-|[<-|[]]]]]; tauto.
  - intros Hd ->. unfold classify. now rewrite Hd.
  - intros [Hd|Hw]; unfold classify.
    + now rewrite Hd.
    + destruct (String.eqb_spec warning ""); [contradiction|].
      now rewrite andb_false_r.
Qed.

Lemma classifier_contract_witness :
  isDestructive "Delete FROM orders" = true /\
  classify "Delete FROM orders" "" = caution /\
  classify "Delete FROM orders" "check first" = "check first" /\
  classify "SELECT 1" "" = "".
Proof.
  destruct (classifier_contract "Delete FROM orders" "") as [_ [Hc _]].
  destruct (classifier_contract "Delete FROM orders" "check first") as [_ [_ Hk]].
  destruct (classifier_contract "SELECT 1" "") as [_ [_ Hs]].
  split; [reflexivity | split; [| split]].
  - apply Hc; reflexivity.
  - apply Hk. right. discriminate.
  - apply Hs. left. reflexivity.
Defined.

(** ** Runs *)

Lemma refuses_run {S : Type} (w : world S) (s : S) (p : io response) :
  refuses p -> calls w s p = [] /\ status (answer w s p) = 400.
Proof. intros [message ->]. split; reflexivity. Qed.

Lemma run_bind {S A B : Type} (w : world S) (p : io A) (f : A -> io B) :
  forall s,
    run w s (bind p f) =
    let '(a, tr1, s1) := run w s p in
    let '(b, tr2, s2) := run w s1 (f a) in
    (b, (tr1 ++ tr2)%list, s2).
Proof.
  induction p as [a | t k IH | sy us k IH | q ps k IH]; intros s; simpl.
  - destruct (run w s (f a)) as [[b tr2] s2]. reflexivity.
  - destruct (catalog w s t) as [r s1]. rewrite IH.
    destruct (run w s1 (k r)) as [[a tr1] s2].
    destruct (run w s2 (f a)) as [[b tr2] s3]. reflexivity.
  - destruct (model w s sy us) as [r s1]. rewrite IH.
    destruct (run w s1 (k r)) as [[a tr1] s2].
    destruct (run w s2 (f a)) as [[b tr2] s3]. reflexivity.
  - destruct (store w s q ps) as [r s1]. rewrite IH.
    destruct (run w s1 (k r)) as [[a tr1] s2].
    destruct (run w s2 (f a)) as [[b tr2] s3]. reflexivity.
Qed.

(** ** CRUD *)

Section CrudFacts.
Import Crud.

(** The operation decides the branch of the [switch]. *)
Ltac by_operation op :=
  unfold build; cbv zeta;
  destruct (String.eqb_spec (toUpperCase op) "INSERT");
  [| destruct (String.eqb_spec (toUpperCase op) "UPDATE");
     [| destruct (String.eqb_spec (toUpperCase op) "DELETE");
        [| destruct (String.eqb_spec (toUpperCase op) "TRUNCATE");
           [| destruct (String.eqb_spec (toUpperCase op) "DROP")]]]].

Lemma no_data_keys (d d' : option (list (string * value))) :
  keys (entries_of d') = keys (entries_of d) -> no_data d' = no_data d.
Proof.
  assert (E : forall x, no_data x = Nat.eqb (List.length (keys (entries_of x))) 0)
    by (intros [o|]; reflexivity).
  intros H. now rewrite !E, H.
Qed.

(** A word of letters, digits and underscores is not empty, so the
    check of [/crud] on the table name lets it through. *)
Lemma valid_table_name_truthy (t : string) :
  valid_table_name t = true -> truthy (Some t) = true.
Proof.
  unfold valid_table_name, is_word, truthy. now intros [H _]%andb_prop.
Qed.

(** C3.  An UPDATE or a DELETE whose [where] is absent or empty is
    answered with a client error, and no call reaches the store. *)
Theorem update_delete_require_where (req : Request) (op : string) :
  operation req = Some op ->
  toUpperCase op = "UPDATE" \/ toUpperCase op = "DELETE" ->
  where_ req = None \/ where_ req = Some "" ->
  refuses (crud req) /\
  forall (S : Type) (w : world S) (s : S), calls w s (crud req) = [].
Proof.
  intros Hop Hkind Hwhere.
  assert (Hw : truthy (where_ req) = false)
    by (destruct Hwhere as [-> | ->]; reflexivity).
  assert (R : refuses (crud req)).
  { unfold crud. rewrite Hop.
    destruct (negb (truthy (Some op)) || negb (truthy (tableName req)));
      [eexists; reflexivity|].
    cbn [template]. unfold build; cbv zeta.
    destruct Hkind as [-> | ->]; cbn [String.eqb Ascii.eqb Bool.eqb];
      rewrite Hw; cbn [negb].
    - destruct (no_data (data req)); eexists; reflexivity.
    - eexists; reflexivity. }
  split; [exact R|]. intros S w s. now apply refuses_run.
Qed.

Lemma update_delete_require_where_witness :
  refuses (crud (mkRequest (Some "delete") (Some "orders") None (Some ""))) /\
  refuses (crud (mkRequest (Some "UPDATE") (Some "orders")
                   (Some [("total", VNum (19 # 2))]) None)).
Proof.
  split.
  - apply (update_delete_require_where
             (mkRequest (Some "delete") (Some "orders") None (Some ""))
             (op := "delete")); [reflexivity | right; reflexivity | right; reflexivity].
  - apply (update_delete_require_where
             (mkRequest (Some "UPDATE") (Some "orders")
                (Some [("total", VNum (19 # 2))]) None)
             (op := "UPDATE")); [reflexivity | left; reflexivity | left; reflexivity].
Defined.

(** C2.  The text of a built statement is the same for any two data
    mappings with the same keys: the values are no part of it.  They are
    in the parameter list, after the table name and next to their
    columns, one per value placeholder.  The filter of an UPDATE or a
    DELETE is the end of the text, as it was sent, right after the
    keyword WHERE. *)
Theorem values_bound_filter_verbatim
    (op table : string) (data : option (list (string * value)))
    (filter : option string) (sql : string) (params : list value) :
  build op table data filter = Statement sql params ->
  (forall data',
      keys (entries_of data') = keys (entries_of data) ->
      exists params', build op table data' filter = Statement sql params') /\
  (toUpperCase op = "INSERT" ->
   sql = "INSERT INTO ?? ("
         ++ join "," (map (fun _ => "??") (keys (entries_of data)))
         ++ ") VALUES ("
         ++ join "," (map (fun _ => "?") (keys (entries_of data))) ++ ")" /\
   params = VStr table
            :: (map VStr (keys (entries_of data))
                ++ values (entries_of data))%list) /\
  (toUpperCase op = "UPDATE" ->
   exists text,
     filter = Some text /\
     sql = "UPDATE ?? SET "
           ++ join ", " (map (fun _ => "?? = ?") (keys (entries_of data)))
           ++ " WHERE " ++ text /\
     params = VStr table :: flat_entries (entries_of data)) /\
  (toUpperCase op = "DELETE" ->
   exists text,
     filter = Some text /\
     sql = "DELETE FROM ?? WHERE " ++ text /\
     params = [VStr table]).
Proof.
  assert (T : forall f, truthy f = true -> exists text, f = Some text).
  { intros [text|] H; [now exists text | discriminate]. }
  by_operation op; intros H.
  - destruct (no_data data) eqn:D; [discriminate|]. injection H as <- <-.
    split; [|split; [|split]]; try congruence.
    + intros data' K. rewrite (no_data_keys _ _ K), D, K.
      eexists; reflexivity.
    + intros _. split; reflexivity.
  - destruct (no_data data) eqn:D; [discriminate|].
    destruct (truthy filter) eqn:W; [|discriminate]. cbn [negb] in *.
    injection H as <- <-. destruct (T _ W) as [text ->].
    split; [|split; [|split]]; try congruence.
    + intros data' K. rewrite (no_data_keys _ _ K), D, K.
      eexists; reflexivity.
    + intros _. exists text. repeat split.
  - destruct (truthy filter) eqn:W; [|discriminate]. cbn [negb] in *.
    injection H as <- <-. destruct (T _ W) as [text ->].
    split; [|split; [|split]]; try congruence.
    + intros data' K. eexists; reflexivity.
    + intros _. exists text. repeat split.
  - injection H as <- <-.
    split; [|split; [|split]]; try congruence.
    intros data' K. eexists; reflexivity.
  - injection H as <- <-.
    split; [|split; [|split]]; try congruence.
    intros data' K. eexists; reflexivity.
  - discriminate.
Qed.

Lemma values_bound_filter_verbatim_witness :
  (exists params',
      build "update" "orders" (Some [("total", VStr "x' OR 1=1")])
        (Some "id = 3 OR 1=1")
      = Statement "UPDATE ?? SET ?? = ? WHERE id = 3 OR 1=1" params') /\
  exists text,
    Some "id = 3 OR 1=1" = Some text /\
    "UPDATE ?? SET ?? = ? WHERE id = 3 OR 1=1"
    = "UPDATE ?? SET "
      ++ join ", " (map (fun _ => "?? = ?")
                      (keys (entries_of (Some [("total", VNum (19 # 2))]))))
      ++ " WHERE " ++ text /\
    [VStr "orders"; VStr "total"; VNum (19 # 2)]
    = VStr "orders" :: flat_entries (entries_of (Some [("total", VNum (19 # 2))])).
Proof.
  destruct (values_bound_filter_verbatim "update" "orders"
              (Some [("total", VNum (19 # 2))]) (Some "id = 3 OR 1=1")
              (sql := "UPDATE ?? SET ?? = ? WHERE id = 3 OR 1=1")
              (params := [VStr "orders"; VStr "total"; VNum (19 # 2)])
              eq_refl) as [Hsame [_ [Hupdate _]]].
  split.
  - apply (Hsame (Some [("total", VStr "x' OR 1=1")])). reflexivity.
  - apply Hupdate. reflexivity.
Defined.

(** C7, as the code has it.  For the INSERT of [{id: 1, total: 9.5}] into
    [orders] the builder hands the store the text
    [INSERT INTO ?? (??,??) VALUES (?,?)] and the parameters
    [orders], [id], [total], 1, 9.5: the table name and the keys of the
    data, in order, for the identifier placeholders, then the values, in
    the same order, for the value placeholders. *)
Theorem insert_order_statement :
  build "INSERT" "orders" (data insert_order) (where_ insert_order)
  = Statement "INSERT INTO ?? (??,??) VALUES (?,?)"
      [VStr "orders"; VStr "id"; VStr "total"; VNum 1; VNum (19 # 2)] /\
  forall (S : Type) (w : world S) (s : S),
    exists r,
      calls w s (crud insert_order)
      = [StoreCall "INSERT INTO ?? (??,??) VALUES (?,?)"
           (Some [VStr "orders"; VStr "id"; VStr "total"; VNum 1;
                  VNum (19 # 2)]) r].
Proof.
  split; [reflexivity|]. intros S w s. unfold calls. simpl.
  destruct (store w s _ _) as [r s1]. exists r. reflexivity.
Qed.

(** C7, as stated, fails: the text holds placeholders where the claim
    has the names, and the parameters start with those names. *)
Lemma insert_order_not_as_stated :
  build "INSERT" "orders" (data insert_order) (where_ insert_order)
  <> Statement "INSERT INTO orders (id, total) VALUES (?, ?)"
       [VNum 1; VNum (19 # 2)].
Proof. vm_compute. discriminate. Qed.

(** C1, the failing request.  [/upload] tests the table name against
    [^[a-zA-Z0-9_]+$]; [/crud] does not, and sends the statement of a
    request whose table name fails that test on to the store. *)
Theorem crud_sends_unchecked_table_name :
  valid_table_name unchecked_name = false /\
  forall (S : Type) (w : world S) (s : S),
    exists r,
      calls w s (crud (mkRequest (Some "TRUNCATE") (Some unchecked_name)
                         None None))
      = [StoreCall "TRUNCATE TABLE ??" (Some [VStr unchecked_name]) r].
Proof.
  split; [reflexivity|]. intros S w s. unfold calls. simpl.
  destruct (store w s _ _) as [r s1]. exists r. reflexivity.
Qed.

End CrudFacts.

(** ** Raw SQL *)

Section ExecuteFacts.
Import Execute.

(** C9.  Two requests with the same [sql] make the same call and get
    the same response, whatever their [requireConfirmation]: the field
    is read and nothing depends on it. *)
Theorem requireConfirmation_is_ignored (r1 r2 : Request) :
  sql r1 = sql r2 ->
  execute r1 = execute r2 /\
  forall (S : Type) (w : world S) (s : S),
    run w s (execute r1) = run w s (execute r2).
Proof.
  intros H. assert (E : execute r1 = execute r2).
  { unfold execute. now rewrite H. }
  split; [exact E|]. intros S w s. now rewrite E.
Qed.

Lemma requireConfirmation_is_ignored_witness :
  execute (mkRequest (Some "DROP TABLE orders") (Some (VBool true)))
  = execute (mkRequest (Some "DROP TABLE orders") None).
Proof.
  apply (requireConfirmation_is_ignored
           (mkRequest (Some "DROP TABLE orders") (Some (VBool true)))
           (mkRequest (Some "DROP TABLE orders") None)).
  reflexivity.
Defined.

End ExecuteFacts.

(** ** Ask *)

Section AskFacts.
Import Ask.

Lemma ask_validation (req : Request) :
  ask req = Ret (error 400 validation_message) \/
  (tableList req <> [] /\ truthy (question req) = true /\
   exists t k, ask req = GetSchema t k).
Proof.
  unfold ask. cbv zeta. destruct (tableList req) as [|t rest] eqn:L.
  - left. reflexivity.
  - destruct (truthy (question req)); [right | left; reflexivity].
    split; [discriminate|]. split; [reflexivity|].
    simpl. eexists _, _. reflexivity.
Qed.

Lemma run_lookups {S : Type} (w : world S) (names : list string) :
  forall s, exists rs s',
    run w s (lookups names) = (rs, lookup_events names rs, s') /\
    List.length rs = List.length names.
Proof.
  induction names as [|name rest IH]; intros s.
  - exists [], s. split; reflexivity.
  - cbn [lookups run]. destruct (catalog w s name) as [r s1].
    rewrite run_bind. destruct (IH s1) as [rs [s2 [E L]]]. rewrite E.
    exists (r :: rs), s2. cbn [run]. rewrite app_nil_r.
    split; [reflexivity | simpl; now rewrite L].
Qed.

Lemma all_resolved {A : Type} (rs : list (outcome A)) (xs : list A) :
  all rs = Resolved xs -> rs = map (@Resolved A) xs.
Proof.
  revert xs; induction rs as [|[a|message] rs IH]; intros xs H; simpl in H.
  - injection H as <-. reflexivity.
  - destruct (all rs) as [ys|]; [|discriminate].
    injection H as <-. simpl. now rewrite (IH ys eq_refl).
  - discriminate.
Qed.

Lemma all_rejected {A : Type} (rs : list (outcome A)) (message : string) :
  all rs = Rejected message -> In (Rejected message) rs.
Proof.
  induction rs as [|[a|m] rs IH]; intros H; simpl in H.
  - discriminate.
  - destruct (all rs) as [ys|]; [discriminate|]. right. apply IH. exact H.
  - left. congruence.
Qed.

Lemma format_from_shift (names : list string) :
  forall idx x schemasResults,
    format_from (S idx) names (x :: schemasResults)
    = format_from idx names schemasResults.
Proof.
  induction names as [|table rest IH]; intros idx x schemasResults.
  - reflexivity.
  - cbn [format_from nth_error]. now rewrite IH.
Qed.

(** An empty schema among the results stops the formatting at the first
    table that has one. *)
Lemma format_from_missing (names : list string) :
  forall schemasResults table,
    List.length schemasResults = List.length names ->
    In (table, []) (combine names schemasResults) ->
    exists missing,
      In (missing, []) (combine names schemasResults) /\
      format_from 0 names schemasResults = inl (not_found missing).
Proof.
  induction names as [|name rest IH]; intros [|schema schemas] table L H;
    try contradiction; try discriminate.
  cbn [format_from nth_error]. destruct schema as [|col cols].
  - exists name. split; [left; reflexivity | reflexivity].
  - cbn [List.length Nat.eqb]. rewrite format_from_shift.
    destruct H as [H|H]; [discriminate|].
    injection L as L. destruct (IH schemas table L H) as [missing [M F]].
    exists missing. split; [right; exact M | now rewrite F].
Qed.

Lemma lookup_events_in (names : list string)
    (rs : list (outcome (list Column))) (e : event) :
  In e (lookup_events names rs) ->
  exists t r, e = SchemaLookup t r /\ In (t, r) (combine names rs).
Proof.
  unfold lookup_events. rewrite in_map_iff.
  intros [[t r] [<- H]]. now exists t, r.
Qed.

Lemma combine_resolved (names : list string) (schemas : list (list Column))
    (t : string) (schema : list Column) :
  In (t, Resolved schema) (combine names (map (@Resolved _) schemas)) ->
  In (t, schema) (combine names schemas).
Proof.
  revert schemas; induction names as [|name rest IH]; intros [|x xs] H;
    try contradiction.
  destruct H as [H|H]; [left; congruence | right; now apply IH].
Qed.

Lemma rejected_in_events (names : list string)
    (rs : list (outcome (list Column))) (r : outcome (list Column)) :
  List.length rs = List.length names -> In r rs ->
  exists t, In (SchemaLookup t r) (lookup_events names rs).
Proof.
  unfold lookup_events. revert rs.
  induction names as [|name rest IH]; intros [|r' rs] L H;
    try discriminate; try contradiction.
  injection L as L. destruct H as [-> | H].
  - exists name. now left.
  - destruct (IH rs L H) as [t Ht]. exists t. now right.
Qed.

Lemma resolved_events (names : list string) (schemas : list (list Column))
    (t : string) (r : outcome (list Column)) :
  In (SchemaLookup t r) (lookup_events names (map (@Resolved _) schemas)) ->
  exists schema, r = Resolved schema /\ In (t, schema) (combine names schemas).
Proof.
  unfold lookup_events. rewrite in_map_iff. intros [[t' r'] [E H]].
  injection E as -> ->. revert schemas H.
  induction names as [|name rest IH]; intros [|x xs] H; try contradiction.
  destruct H as [H|H].
  - injection H as <- <-. exists x. split; [reflexivity | now left].
  - destruct (IH xs H) as [schema [-> Hin]]. exists schema.
    split; [reflexivity | now right].
Qed.

(** C6, as the code has it.  When the lookup of one of the named tables
    comes back empty, the request makes no call but its schema lookups
    (no prompt goes to the model, no SQL to the store) and is answered
    with status 500.  When the store answered every lookup, the error is
    [Table '<name>' not found] for a named table whose lookup was empty;
    when the store rejected a lookup, the error is the message of a
    rejected lookup. *)
Theorem missing_table_aborts_ask {S : Type} (w : world S) (s : S)
    (req : Request) :
  (exists t, In (SchemaLookup t (Resolved [])) (calls w s (ask req))) ->
  (forall e, In e (calls w s (ask req)) -> exists t r, e = SchemaLookup t r) /\
  status (answer w s (ask req)) = 500 /\
  ((forall t message,
       ~ In (SchemaLookup t (Rejected message)) (calls w s (ask req))) ->
   exists t,
     In t (tableList req) /\
     In (SchemaLookup t (Resolved [])) (calls w s (ask req)) /\
     answer w s (ask req) = error 500 (not_found t)) /\
  ((exists t message,
       In (SchemaLookup t (Rejected message)) (calls w s (ask req))) ->
   exists t message,
     In (SchemaLookup t (Rejected message)) (calls w s (ask req)) /\
     answer w s (ask req) = error 500 message).
Proof.
  unfold calls, answer, ask. cbv zeta.
  destruct (Nat.eqb (List.length (tableList req)) 0
            || negb (truthy (question req))).
  { intros [t []]. }
  rewrite run_bind.
  destruct (run_lookups w (tableList req) s) as [rs [s1 [E L]]]. rewrite E.
  destruct (all rs) as [schemas|message] eqn:A.
  - apply all_resolved in A. subst rs. rewrite length_map in L.
    unfold schemasText.
    destruct (format_from 0 (tableList req) schemas) as [message|texts] eqn:F.
    + cbn [run fst snd]. rewrite app_nil_r. intros [t H].
      apply lookup_events_in in H as [t' [r [H1 H2]]].
      injection H1 as <- <-. apply combine_resolved in H2.
      destruct (format_from_missing _ _ _ L H2) as [missing [M Fm]].
      rewrite F in Fm. injection Fm as ->.
      split; [|split; [reflexivity|split]].
      * intros e He. apply lookup_events_in in He as [t1 [r1 [-> _]]].
        now exists t1, r1.
      * intros _. exists missing. split; [|split; [|reflexivity]].
        -- exact (in_combine_l _ _ _ _ M).
        -- unfold lookup_events. apply in_map_iff.
           exists (missing, Resolved []). split; [reflexivity|].
           clear - M L. revert schemas M L.
           induction (tableList req) as [|name rest IH];
             intros [|x xs] M L; try contradiction.
           destruct M as [M|M]; [left; congruence | right].
           injection L as L. now apply IH.
      * intros [t1 [m1 R]]. apply resolved_events in R as [schema [R _]].
        discriminate.
    + intros [t H]. exfalso.
      assert (H' : In (SchemaLookup t (Resolved []))
                     (lookup_events (tableList req) (map (@Resolved _) schemas))).
      { cbn [run] in H. destruct (model w s1 _ _) as [[content|m] s2];
          cbn [run] in H;
          [destruct (store w s2 _ _) as [r s3]|]; cbn [fst snd] in H;
          apply in_app_or in H as [H|H]; try exact H;
          simpl in H; intuition discriminate. }
      apply lookup_events_in in H' as [t' [r [H1 H2]]].
      injection H1 as <- <-. apply combine_resolved in H2.
      destruct (format_from_missing _ _ _ L H2) as [missing [_ Fm]].
      rewrite F in Fm. discriminate.
  - cbn [run fst snd]. rewrite app_nil_r. intros _.
    apply all_rejected in A.
    destruct (rejected_in_events (tableList req) rs _ L A) as [t R].
    split; [|split; [reflexivity|split]].
    + intros e He. apply lookup_events_in in He as [t1 [r1 [-> _]]].
      now exists t1, r1.
    + intros NoReject. exfalso. exact (NoReject t message R).
    + intros _. now exists t, message.
Qed.

Lemma missing_table_aborts_ask_witness :
  (exists t,
      In (SchemaLookup t (Resolved []))
        (calls orders_only tt
           (ask (mkRequest (Many ["orders"; "customers"])
                   (Some "who bought most?") None)))) /\
  status (answer orders_only tt
            (ask (mkRequest (Many ["orders"; "customers"])
                    (Some "who bought most?") None))) = 500 /\
  exists t,
    In t ["orders"; "customers"] /\
    answer orders_only tt
      (ask (mkRequest (Many ["orders"; "customers"])
              (Some "who bought most?") None))
    = error 500 (not_found t).
Proof.
  assert (H : exists t,
             In (SchemaLookup t (Resolved []))
               (calls orders_only tt
                  (ask (mkRequest (Many ["orders"; "customers"])
                          (Some "who bought most?") None)))).
  { exists "customers". right. left. reflexivity. }
  destruct (missing_table_aborts_ask orders_only tt _ H)
    as [_ [St [Found _]]].
  split; [exact H|]. split; [exact St|].
  destruct Found as [t [Ht [_ Ha]]].
  - intros t m R. vm_compute in R.
    destruct R as [R|[R|[]]]; discriminate R.
  - exists t. split; [exact Ht | exact Ha].
Defined.

(** C6, as stated, fails: with the lookup of [orders] empty and the
    lookup of [customers] rejected by the store, the request is answered
    with the store's message, not with a table that was not found. *)
Lemma rejected_lookup_hides_missing_table :
  ~ ((exists t,
         In (SchemaLookup t (Resolved []))
           (calls orders_empty_customers_down tt (ask two_tables))) ->
     exists t,
       answer orders_empty_customers_down tt (ask two_tables)
       = error 500 (not_found t)).
Proof.
  intros H. destruct H as [t H].
  - exists "orders". left. reflexivity.
  - assert (E : answer orders_empty_customers_down tt (ask two_tables)
                = error 500 "connection lost") by reflexivity.
    rewrite E in H. injection H as H. unfold not_found in H. discriminate H.
Qed.

(** C10, as the code has it.  The table input is normalized first: an
    array is taken as it is, a text that is not empty becomes a list of
    one name, and when [tables] is absent or empty a [table] field that
    is not empty becomes a list of one name (the list is empty
    otherwise).  The request is refused with a client error, before any
    call, exactly when that list is empty or the question is absent or
    empty. *)
Theorem ask_normalizes_then_validates (req : Request) :
  (forall names, tables req = Many names -> tableList req = names) /\
  (forall name, tables req = One name -> name <> "" ->
                tableList req = [name]) /\
  (forall name, given (tables req) = false -> table req = Some name ->
                name <> "" -> tableList req = [name]) /\
  (given (tables req) = false -> truthy (table req) = false ->
   tableList req = []) /\
  (refuses (ask req) <->
   tableList req = [] \/ question req = None \/ question req = Some "").
Proof.
  assert (N : forall name, name <> "" -> truthy (Some name) = true).
  { intros name H. simpl. now destruct (String.eqb_spec name ""). }
  unfold tableList.
  split; [|split; [|split; [|split]]].
  - intros names ->. reflexivity.
  - intros name -> H. cbn [given as_array]. now rewrite (N _ H).
  - intros name -> -> H. now rewrite (N _ H).
  - intros -> ->. reflexivity.
  - fold (tableList req). split.
    + intros [message R]. destruct (ask_validation req) as [_|[L [Q [t [k E]]]]].
      * unfold ask in R. cbv zeta in R.
        destruct (tableList req) as [|t rest]; [now left | right].
        destruct (question req) as [q|]; [right | now left].
        destruct (String.eqb_spec q ""); [now subst|].
        simpl in R. rewrite (proj2 (String.eqb_neq q "")) in R by assumption.
        discriminate.
      * rewrite E in R. discriminate.
    + intros H. exists validation_message. unfold ask. cbv zeta.
      destruct H as [-> | [-> | ->]]; [reflexivity | |];
        now rewrite orb_true_r.
Qed.

Lemma ask_normalizes_then_validates_witness :
  tableList (mkRequest (One "orders") (Some "how many?") None) = ["orders"] /\
  tableList (mkRequest Absent (Some "how many?") (Some "orders")) = ["orders"] /\
  refuses (ask (mkRequest (Many ["orders"]) (Some "") None)).
Proof.
  destruct (ask_normalizes_then_validates
              (mkRequest (One "orders") (Some "how many?") None))
    as [_ [Hone _]].
  destruct (ask_normalizes_then_validates
              (mkRequest Absent (Some "how many?") (Some "orders")))
    as [_ [_ [Hlegacy _]]].
  destruct (ask_normalizes_then_validates
              (mkRequest (Many ["orders"]) (Some "") None))
    as [_ [_ [_ [_ Hrefused]]]].
  split; [|split].
  - apply (Hone "orders"); [reflexivity | discriminate].
  - apply (Hlegacy "orders"); [reflexivity | reflexivity | discriminate].
  - apply Hrefused. right. right. reflexivity.
Defined.

(** C10, as stated, fails: a request with a table and an empty question
    is refused, although its list is not empty and its question is not
    absent. *)
Lemma empty_question_is_refused :
  ~ (refuses (ask (mkRequest (Many ["orders"]) (Some "") None)) <->
     tableList (mkRequest (Many ["orders"]) (Some "") None) = [] \/
     question (mkRequest (Many ["orders"]) (Some "") None) = None).
Proof.
  intros [H _]. destruct H as [H|H]; [|discriminate H|discriminate H].
  exists validation_message. reflexivity.
Qed.

End AskFacts.

(** * Further properties of the handlers *)

(** ** CRUD: one statement per request *)

Section CrudRuns.
Import Crud.

Ltac switch_on op :=
  unfold build; cbv zeta;
  destruct (String.eqb_spec (toUpperCase op) "INSERT");
  [| destruct (String.eqb_spec (toUpperCase op) "UPDATE");
     [| destruct (String.eqb_spec (toUpperCase op) "DELETE");
        [| destruct (String.eqb_spec (toUpperCase op) "TRUNCATE");
           [| destruct (String.eqb_spec (toUpperCase op) "DROP")]]]].

Lemma build_refusal (op table : string) (d : option (list (string * value)))
    (filter : option string) (r : response) :
  build op table d filter = Refused r -> exists message, r = error 400 message.
Proof.
  switch_on op; intros H;
    repeat match type of H with
      | (if ?c then _ else _) = _ => destruct c
      end;
    try discriminate; injection H as <-; eexists; reflexivity.
Qed.

(** The two shapes of the handler: a refusal, or the one call with its
    callback. *)
Lemma crud_shape (req : Request) :
  refuses (crud req) \/
  exists op table sql params,
    operation req = Some op /\ op <> "" /\
    tableName req = Some table /\ table <> "" /\
    build op table (data req) (where_ req) = Statement sql params /\
    crud req = DbQuery sql (Some params) (fun r => Ret (reply op r)).
Proof.
  unfold crud. destruct (operation req) as [op|]; [|left; eexists; reflexivity].
  destruct (tableName req) as [table|];
    [|left; rewrite orb_true_r; eexists; reflexivity].
  cbn [truthy template].
  destruct (String.eqb_spec op ""); [left; eexists; reflexivity|].
  destruct (String.eqb_spec table ""); [left; eexists; reflexivity|].
  cbn [negb orb].
  destruct (build op table (data req) (where_ req)) as [r|sql params] eqn:B.
  - left. destruct (build_refusal _ _ _ _ B) as [message ->]. now exists message.
  - right. exists op, table, sql, params. repeat split; assumption.
Qed.

(** X1.  A CRUD request makes at most one call.  Either it makes no call
    at all, and then it is not answered 200; or it makes exactly one
    call, a statement with its parameter list, and nothing else: no
    schema lookup, no model call, no second statement. *)
Theorem crud_one_statement {S : Type} (w : world S) (s : S) (req : Request) :
  (calls w s (crud req) = [] /\ status (answer w s (crud req)) <> 200) \/
  exists sql params r, calls w s (crud req) = [StoreCall sql (Some params) r].
Proof.
  destruct (crud_shape req) as [R | [op [table [sql [params [_ [_ [_ [_ [_ E]]]]]]]]]].
  - left. destruct (refuses_run w s R) as [C St]. split; [exact C|].
    rewrite St. discriminate.
  - right. rewrite E. unfold calls. cbn [run].
    destruct (store w s sql (Some params)) as [r s1]. now exists sql, params, r.
Qed.

(** X2.  The answer follows the store: a statement the store rejects is
    answered 400 with the store's message, and one it accepts is
    answered 200 with the operation as sent and the number of affected
    rows (0 when the store returned rows). *)
Theorem crud_answer_follows_store {S : Type} (w : world S) (s : S)
    (req : Request) (sql : string) (params : option (list value))
    (r : outcome db_result) :
  calls w s (crud req) = [StoreCall sql params r] ->
  match r with
  | Rejected message => answer w s (crud req) = error 400 message
  | Resolved result =>
      answer w s (crud req)
      = json (VObj [("success", VBool true);
                    ("operation", VStr (template (operation req)));
                    ("affectedRows", num_of_nat (affected_of result));
                    ("message",
                     VStr (template (operation req)
                           ++ " completed successfully"))])
  end.
Proof.
  destruct (crud_shape req) as [R | [op [table [q [ps [Ho [_ [_ [_ [_ E]]]]]]]]]].
  - rewrite (proj1 (refuses_run w s R)). discriminate.
  - rewrite E, Ho. unfold calls, answer. cbn [run template].
    destruct (store w s q (Some ps)) as [r' s1]. cbn [fst snd].
    intros H. injection H as _ _ ->. destruct r; reflexivity.
Qed.

Lemma crud_answer_follows_store_witness :
  answer orders_only tt (crud insert_order) = error 400 "no store".
Proof.
  exact (crud_answer_follows_store orders_only tt insert_order
           (sql := "INSERT INTO ?? (??,??) VALUES (?,?)")
           (r := Rejected "no store") eq_refl).
Defined.

(** X3.  The operation is matched whatever its letter case: two
    operation names with the same upper-case form build the same
    statement and the same parameters. *)
Theorem operation_case_insensitive (op1 op2 table : string)
    (d : option (list (string * value))) (filter : option string)
    (sql : string) (params : list value) :
  toUpperCase op1 = toUpperCase op2 ->
  build op1 table d filter = Statement sql params ->
  build op2 table d filter = Statement sql params.
Proof.
  intros U. unfold build. cbv zeta. rewrite U.
  destruct (toUpperCase op2 =? "INSERT"); [trivial|].
  destruct (toUpperCase op2 =? "UPDATE"); [trivial|].
  destruct (toUpperCase op2 =? "DELETE"); [trivial|].
  destruct (toUpperCase op2 =? "TRUNCATE"); [trivial|].
  destruct (toUpperCase op2 =? "DROP"); [trivial|]. discriminate.
Qed.

Lemma operation_case_insensitive_witness :
  build "Drop" "orders" None None
  = Statement "DROP TABLE IF EXISTS ??" [VStr "orders"].
Proof.
  apply (operation_case_insensitive "DROP" "Drop"); reflexivity.
Defined.

(** X4.  An INSERT or an UPDATE whose [data] is absent or has no key is
    answered 400 and makes no call, whatever the filter. *)
Theorem insert_update_require_data (req : Request) (op : string) :
  operation req = Some op ->
  toUpperCase op = "INSERT" \/ toUpperCase op = "UPDATE" ->
  data req = None \/ data req = Some [] ->
  refuses (crud req) /\
  forall (S : Type) (w : world S) (s : S), calls w s (crud req) = [].
Proof.
  intros Ho Hk Hd.
  assert (R : refuses (crud req)).
  { destruct (crud_shape req)
      as [R | [op' [table [sql [params [Ho' [_ [_ [_ [B _]]]]]]]]]];
      [exact R | exfalso].
    rewrite Ho in Ho'. injection Ho' as <-.
    assert (N : no_data (data req) = true)
      by (destruct Hd as [-> | ->]; reflexivity).
    unfold build in B. cbv zeta in B.
    destruct Hk as [U | U]; rewrite U, N in B; discriminate. }
  split; [exact R|]. intros S w s. now apply refuses_run.
Qed.

Lemma insert_update_require_data_witness :
  refuses (crud (mkRequest (Some "insert") (Some "orders") (Some [])
                   (Some "id = 1"))).
Proof.
  apply (insert_update_require_data
           (mkRequest (Some "insert") (Some "orders") (Some []) (Some "id = 1"))
           (op := "insert"));
    [reflexivity | left; reflexivity | right; reflexivity].
Defined.

(** X5.  An operation written in ASCII whose upper-case form is none of
    INSERT, UPDATE, DELETE, TRUNCATE and DROP is answered 400 with
    [Unsupported operation: ] followed by the operation as it was sent,
    and makes no call.  (Outside ASCII the dotless i and the long s
    upper-case to [I] and [S], so that such a spelling of INSERT is run
    by the code; these operations are left out here.) *)
Theorem unsupported_operation_refused (req : Request) (op table : string) :
  operation req = Some op -> op <> "" -> ascii_text op = true ->
  tableName req = Some table -> table <> "" ->
  ~ In (toUpperCase op) ["INSERT"; "UPDATE"; "DELETE"; "TRUNCATE"; "DROP"] ->
  crud req = Ret (error 400 ("Unsupported operation: " ++ op)).
Proof.
  intros Ho Ne _ Ht Nt Hn. unfold crud. rewrite Ho, Ht. cbn [truthy template].
  rewrite (proj2 (String.eqb_neq op "") Ne), (proj2 (String.eqb_neq table "") Nt).
  cbn [negb orb]. switch_on op; try reflexivity; exfalso; apply Hn; simpl;
    intuition congruence.
Qed.

Lemma unsupported_operation_refused_witness :
  crud (mkRequest (Some "select") (Some "orders") None None)
  = Ret (error 400 "Unsupported operation: select").
Proof.
  apply (unsupported_operation_refused
           (mkRequest (Some "select") (Some "orders") None None)
           (op := "select") (table := "orders"));
    try reflexivity; try discriminate.
  simpl. intuition discriminate.
Defined.

(** X6.  TRUNCATE and DROP have no precondition on [data] or [where]:
    with a table name that is not empty they always send their fixed
    text with the table name as the only parameter. *)
Theorem truncate_drop_unconditional {S : Type} (w : world S) (s : S)
    (req : Request) (op table : string) :
  operation req = Some op -> tableName req = Some table -> table <> "" ->
  toUpperCase op = "TRUNCATE" \/ toUpperCase op = "DROP" ->
  exists r,
    calls w s (crud req)
    = [StoreCall (if toUpperCase op =? "TRUNCATE" then "TRUNCATE TABLE ??"
                  else "DROP TABLE IF EXISTS ??")
         (Some [VStr table]) r].
Proof.
  intros Ho Ht Nt Hk.
  assert (Ne : op <> "") by (intros ->; destruct Hk; discriminate).
  unfold crud, calls. rewrite Ho, Ht. cbn [truthy template].
  rewrite (proj2 (String.eqb_neq op "") Ne), (proj2 (String.eqb_neq table "") Nt).
  cbn [negb orb]. unfold build. cbv zeta.
  destruct Hk as [-> | ->]; cbn [String.eqb Ascii.eqb Bool.eqb run];
    destruct (store w s _ _) as [r s1]; exists r; reflexivity.
Qed.

Lemma truncate_drop_unconditional_witness :
  exists r,
    calls orders_only tt
      (crud (mkRequest (Some "drop") (Some "orders")
               (Some [("id", num_of_nat 1)]) None))
    = [StoreCall "DROP TABLE IF EXISTS ??" (Some [VStr "orders"]) r].
Proof.
  apply (truncate_drop_unconditional orders_only tt
           (mkRequest (Some "drop") (Some "orders")
              (Some [("id", num_of_nat 1)]) None)
           (op := "drop") (table := "orders"));
    [reflexivity | reflexivity | discriminate | right; reflexivity].
Defined.

End CrudRuns.

(** ** Raw SQL: what is sent and what comes back *)

Section ExecuteRuns.
Import Execute.

(** X7.  A text that is not empty goes to the store as it is, without
    parameters and without any check of what the statement does; the
    answer is made from the store's outcome alone. *)
Theorem execute_sends_text_as_is {S : Type} (w : world S) (s : S)
    (req : Request) (text : string) :
  sql req = Some text -> text <> "" ->
  exists r,
    calls w s (execute req) = [StoreCall text None r] /\
    answer w s (execute req) = reply r.
Proof.
  intros Hs Ne. unfold execute, calls, answer. rewrite Hs.
  cbn [truthy template]. rewrite (proj2 (String.eqb_neq text "") Ne).
  cbn [negb run]. destruct (store w s text None) as [r s1].
  exists r. split; reflexivity.
Qed.

Lemma execute_sends_text_as_is_witness :
  exists r,
    calls orders_only tt
      (execute (mkRequest (Some "DROP TABLE orders") None))
    = [StoreCall "DROP TABLE orders" None r] /\
    answer orders_only tt
      (execute (mkRequest (Some "DROP TABLE orders") None))
    = reply r.
Proof.
  apply (execute_sends_text_as_is orders_only tt
           (mkRequest (Some "DROP TABLE orders") None)
           (text := "DROP TABLE orders")); [reflexivity | discriminate].
Defined.

(** X8.  Every answer of [/execute] with status 200 has the three fields
    [results], [rowCount] and [affectedRows]; [rowCount] is the number of
    rows in [results], and [results] is empty or [affectedRows] is 0. *)
Theorem execute_result_shape {S : Type} (w : world S) (s : S) (req : Request) :
  status (answer w s (execute req)) = 200 ->
  exists rows n,
    body (answer w s (execute req))
    = VObj [("results", VArr rows);
            ("rowCount", num_of_nat (List.length rows));
            ("affectedRows", num_of_nat n)] /\
    (rows = [] \/ n = 0).
Proof.
  unfold execute, answer.
  destruct (negb (truthy (sql req))); [discriminate|].
  cbn [run]. destruct (store w s _ None) as [[[rows|n]|message] s1];
    cbn [fst snd reply status body json error rows_of affected_of];
    try discriminate; intros _.
  - exists rows, 0. split; [reflexivity | now right].
  - exists [], n. split; [reflexivity | now left].
Qed.

Lemma execute_result_shape_witness :
  exists rows n,
    body (answer (mkWorld (fun _ _ => (Rejected "", tt))
                    (fun _ _ _ => (Rejected "", tt))
                    (fun _ _ _ => (Resolved (Header 3), tt))) tt
            (execute (mkRequest (Some "DELETE FROM t") None)))
    = VObj [("results", VArr rows);
            ("rowCount", num_of_nat (List.length rows));
            ("affectedRows", num_of_nat n)] /\
    (rows = [] \/ n = 0).
Proof.
  apply (execute_result_shape
           (mkWorld (fun _ _ => (Rejected "", tt))
              (fun _ _ _ => (Rejected "", tt))
              (fun _ _ _ => (Resolved (Header 3), tt))) tt
           (mkRequest (Some "DELETE FROM t") None)).
  reflexivity.
Defined.

End ExecuteRuns.

(** ** Ask: the order of the calls and the fate of failures *)

Section AskRuns.
Import Ask.

(** Every run of the handler stops at one of the five points. *)
Lemma ask_run {S : Type} (w : world S) (s : S) (req : Request) :
  ask_stops req (answer w s (ask req)) (calls w s (ask req)).
Proof.
  unfold calls, answer, ask. cbv zeta.
  destruct (Nat.eqb (List.length (tableList req)) 0
            || negb (truthy (question req))); [constructor|].
  rewrite run_bind.
  destruct (run_lookups w (tableList req) s) as [rs [s1 [E L]]]. rewrite E.
  destruct (all rs) as [schemas|message] eqn:A.
  - apply all_resolved in A. subst rs. rewrite length_map in L.
    destruct (schemasText (tableList req) schemas) as [message|text] eqn:T.
    + cbn [run fst snd]. rewrite app_nil_r. now constructor.
    + cbn [run]. destruct (model w s1 _ _) as [[content|message] s2].
      * cbn [run]. destruct (store w s2 _ _) as [r s3]. cbn [fst snd].
        now apply stops_at_store.
      * cbn [run fst snd]. now apply stops_at_model.
  - cbn [run fst snd]. rewrite app_nil_r. now constructor.
Qed.

Lemma lookup_events_only (names : list string)
    (rs : list (outcome (list Column))) (e : event) :
  In e (lookup_events names rs) -> exists t r, e = SchemaLookup t r.
Proof.
  unfold lookup_events. rewrite in_map_iff.
  intros [[t r] [<- _]]. now exists t, r.
Qed.

(** X9.  The calls of a request come in a fixed order: first one schema
    lookup for each named table, in the order of the names, then at most
    one prompt to the model, then at most one statement to the store; and
    there is a statement only after a prompt that the model answered. *)
Theorem ask_calls_in_order {S : Type} (w : world S) (s : S) (req : Request) :
  calls w s (ask req) = [] \/
  exists rs rest,
    calls w s (ask req) = (lookup_events (tableList req) rs ++ rest)%list /\
    List.length rs = List.length (tableList req) /\
    (rest = [] \/
     (exists sy us message, rest = [ModelCall sy us (Rejected message)]) \/
     (exists sy us content sql r,
         rest = [ModelCall sy us (Resolved content); StoreCall sql None r])).
Proof.
  destruct (ask_run w s req)
    as [ | rs m L A | schemas m L T | schemas text m L T
         | schemas text content r L T].
  - now left.
  - right. exists rs, []. rewrite app_nil_r. auto.
  - right. exists (map (@Resolved _) schemas), [].
    rewrite app_nil_r, length_map. auto.
  - right. eexists (map (@Resolved _) schemas), _. rewrite length_map.
    split; [reflexivity|]. split; [exact L|]. right. left.
    now eexists _, _, _.
  - right. eexists (map (@Resolved _) schemas), _. rewrite length_map.
    split; [reflexivity|]. split; [exact L|]. right. right.
    now eexists _, _, _, _, _.
Qed.

Lemma events_of_schemas (names : list string) (schemas : list (list Column))
    (t : string) (schema : list Column) :
  In (t, schema) (combine names schemas) ->
  In (SchemaLookup t (Resolved schema))
    (lookup_events names (map (@Resolved _) schemas)).
Proof.
  unfold lookup_events. intros H. apply in_map_iff.
  exists (t, Resolved schema). split; [reflexivity|].
  revert schemas H.
  induction names as [|name rest IH]; intros [|x xs] H; try contradiction.
  destruct H as [H|H]; [left; congruence | right; now apply IH].
Qed.

(** What [schemasText] gives when no table is missing: the lines of the
    tables, in order, joined by line feeds. *)
Lemma format_from_lines (names : list string) :
  forall schemas texts,
    List.length schemas = List.length names ->
    format_from 0 names schemas = inr texts ->
    Forall (fun schema => schema <> []) schemas /\
    texts = map (fun p => formatSchema (snd p) (fst p)) (combine names schemas).
Proof.
  induction names as [|name rest IH]; intros [|schema schemas] texts L H;
    try discriminate.
  - injection H as <-. split; [constructor | reflexivity].
  - cbn [format_from nth_error] in H. destruct schema as [|col cols];
      [discriminate|]. cbn [List.length Nat.eqb] in H.
    rewrite format_from_shift in H.
    destruct (format_from 0 rest schemas) as [|rest_texts] eqn:F;
      [discriminate|]. injection H as <-. injection L as L.
    destruct (IH schemas rest_texts L F) as [Hall ->].
    split; [constructor; [discriminate | exact Hall] | reflexivity].
Qed.

(** X10.  The model is prompted only with the full context: when a
    prompt is sent, every named table was looked up and none of the
    schemas was empty, and the prompt is the fixed system message and the
    template filled with one line per table, in order, and the
    question. *)
Theorem model_sees_every_schema {S : Type} (w : world S) (s : S)
    (req : Request) (sy us : string) (r : outcome string) :
  In (ModelCall sy us r) (calls w s (ask req)) ->
  exists schemas,
    List.length schemas = List.length (tableList req) /\
    Forall (fun schema => schema <> []) schemas /\
    (forall t schema,
        In (t, schema) (combine (tableList req) schemas) ->
        In (SchemaLookup t (Resolved schema)) (calls w s (ask req))) /\
    sy = system_message /\
    us = prompt
           (join (String LF "")
              (map (fun p => formatSchema (snd p) (fst p))
                 (combine (tableList req) schemas)))
           (template (question req)).
Proof.
  assert (T : forall schemas text,
             List.length schemas = List.length (tableList req) ->
             schemasText (tableList req) schemas = inr text ->
             Forall (fun schema => schema <> []) schemas /\
             text = join (String LF "")
                      (map (fun p => formatSchema (snd p) (fst p))
                         (combine (tableList req) schemas))).
  { intros schemas text L H. unfold schemasText in H.
    destruct (format_from 0 (tableList req) schemas) as [|texts] eqn:F;
      [discriminate|]. injection H as <-.
    destruct (format_from_lines _ _ L F) as [Hall ->]. now split. }
  destruct (ask_run w s req)
    as [ | rs m L A | schemas m L E | schemas text m L E
         | schemas text content r' L E]; intros H.
  - contradiction.
  - apply lookup_events_only in H as [t [r0 H]]. discriminate.
  - apply lookup_events_only in H as [t [r0 H]]. discriminate.
  - destruct (T _ _ L E) as [Hall ->]. exists schemas.
    apply in_app_or in H as [H|H];
      [apply lookup_events_only in H as [t [r0 H]]; discriminate|].
    destruct H as [H|[]]. injection H as <- <- <-.
    repeat split; try assumption; try reflexivity.
    intros t schema Hin. apply in_or_app. left. now apply events_of_schemas.
  - destruct (T _ _ L E) as [Hall ->]. exists schemas.
    apply in_app_or in H as [H|H];
      [apply lookup_events_only in H as [t [r0 H]]; discriminate|].
    destruct H as [H|[H|[]]]; [|discriminate]. injection H as <- <- <-.
    repeat split; try assumption; try reflexivity.
    intros t schema Hin. apply in_or_app. left. now apply events_of_schemas.
Qed.

Lemma model_sees_every_schema_witness :
  exists schemas : list (list Column),
    List.length schemas = 2 /\
    Forall (fun schema => schema <> []) schemas.
Proof.
  pose (w := mkWorld
               (fun (_ : unit) (t : string) =>
                  (Resolved [mkColumn (t ++ "_id") "int"], tt))
               (fun _ _ _ => (Rejected "model is down", tt))
               (fun _ _ _ => (Rejected "no store", tt))).
  pose (req := mkRequest (Many ["orders"; "customers"]) (Some "how many?") None).
  destruct (model_sees_every_schema w tt req system_message
              (prompt (join (String LF "")
                         ["orders(orders_id int)";
                          "customers(customers_id int)"])
                 "how many?")
              (Rejected "model is down"))
    as [schemas [L [Hall _]]].
  - right. right. left. reflexivity.
  - exists schemas. split; [exact L | exact Hall].
Defined.

(** X11.  A lookup that the store rejects, or a prompt that the model
    fails to answer, ends the request with status 500 and the message of
    a failure, and no statement is sent to the store. *)
Theorem ask_failure_before_store {S : Type} (w : world S) (s : S)
    (req : Request) :
  (exists t message,
      In (SchemaLookup t (Rejected message)) (calls w s (ask req))) \/
  (exists sy us message,
      In (ModelCall sy us (Rejected message)) (calls w s (ask req))) ->
  (exists message,
      answer w s (ask req) = error 500 message /\
      ((exists t, In (SchemaLookup t (Rejected message)) (calls w s (ask req)))
       \/ exists sy us,
           In (ModelCall sy us (Rejected message)) (calls w s (ask req)))) /\
  forall sql params r, ~ In (StoreCall sql params r) (calls w s (ask req)).
Proof.
  destruct (ask_run w s req)
    as [ | rs m L A | schemas m L E | schemas text m L E
         | schemas text content r' L E]; intros H.
  - destruct H as [[t [m []]] | [sy [us [m []]]]].
  - split.
    + exists m. split; [reflexivity|]. left.
      apply all_rejected in A. now apply rejected_in_events.
    + intros q ps r Hin. apply lookup_events_only in Hin as [t [r0 Hin]].
      discriminate.
  - exfalso. destruct H as [[t [m' H]] | [sy [us [m' H]]]].
    + apply resolved_events in H as [schema [H _]]. discriminate.
    + apply lookup_events_only in H as [t [r0 H]]. discriminate.
  - split.
    + exists m. split; [reflexivity|]. right. eexists _, _.
      apply in_or_app. right. left. reflexivity.
    + intros q ps r Hin. apply in_app_or in Hin as [Hin|[Hin|[]]];
        [apply lookup_events_only in Hin as [t [r0 Hin]]|]; discriminate.
  - exfalso. destruct H as [[t [m' H]] | [sy [us [m' H]]]].
    + apply in_app_or in H as [H|[H|[H|[]]]]; try discriminate.
      apply resolved_events in H as [schema [H _]]. discriminate.
    + apply in_app_or in H as [H|[H|[H|[]]]]; try discriminate.
      apply lookup_events_only in H as [t [r0 H]]. discriminate.
Qed.

Lemma ask_failure_before_store_witness :
  exists message,
    answer orders_only tt
      (ask (mkRequest (One "orders") (Some "how many?") None))
    = error 500 message.
Proof.
  destruct (ask_failure_before_store orders_only tt
              (mkRequest (One "orders") (Some "how many?") None))
    as [[message [H _]] _].
  - right. exists system_message,
      (prompt "orders(id int)" "how many?"), "no model".
    right. left. reflexivity.
  - exists message. exact H.
Defined.

End AskRuns.

(** ** The reply of the model: what the three fields never hold *)

Section ReplyFacts.

Lemma remove_go_skip (pat : string) (k : nat) :
  forall s nl,
    remove_go pat (S k) nl s = remove_go pat 0 true (drop (S k) s).
Proof.
  induction k as [|k IH]; intros [|c s] nl; try reflexivity.
  cbn [remove_go drop]. apply IH.
Qed.

Lemma length_drop_le (n : nat) (s : string) :
  String.length (drop n s) <= String.length s.
Proof. rewrite length_drop. lia. Qed.

Lemma fence_prefix (c : ascii) (s : string) :
  prefix fence (String c s) = true <-> c = "`"%char /\ prefix "``" s = true.
Proof.
  rewrite !prefix_spec. unfold fence. split.
  - intros [rest H]. injection H as -> ->. split; [reflexivity | now exists rest].
  - intros [-> [rest ->]]. now exists rest.
Qed.

Lemma two_backquotes (s : string) : prefix "``" (String "`" (String "`" s)) = true.
Proof. apply prefix_spec. now exists s. Qed.

(** Two backquotes at the start of the output were there in the input. *)
Lemma remove_keeps_short_runs (s : string) :
  prefix "``" s = false -> prefix "``" (remove_go fence 0 false s) = false.
Proof.
  intros H. destruct (prefix "``" (remove_go fence 0 false s)) eqn:P;
    [exfalso | reflexivity].
  apply prefix_spec in P as [rest P].
  destruct s as [|c s]; [discriminate P|]. cbn [remove_go andb] in P.
  destruct (prefix fence (String c s)) eqn:F.
  - apply fence_prefix in F as [-> [r ->]%prefix_spec].
    cbn [append] in H. now rewrite two_backquotes in H.
  - injection P as -> P. destruct s as [|d s]; [discriminate P|].
    cbn [remove_go andb] in P. destruct (prefix fence (String d s)) eqn:G.
    + apply fence_prefix in G as [-> _]. now rewrite two_backquotes in H.
    + injection P as -> _. now rewrite two_backquotes in H.
Qed.

(** After [replace(/```\n?/g, "")] no fence is left. *)
Lemma remove_leaves_no_fence (n : nat) :
  forall s nl,
    String.length s <= n -> includes (remove_go fence 0 nl s) fence = false.
Proof.
  induction n as [|n IH]; intros [|c s] nl L; try reflexivity;
    [simpl in L; lia|].
  simpl in L. cbn [remove_go].
  destruct (nl && Ascii.eqb c LF); [apply IH; lia|].
  destruct (prefix fence (String c s)) eqn:P.
  - cbn [fence String.length Nat.sub]. rewrite remove_go_skip. apply IH.
    pose proof (length_drop_le 2 s). lia.
  - cbn [includes]. rewrite (IH s false) by lia. rewrite orb_false_r.
    destruct (prefix fence (String c (remove_go fence 0 false s))) eqn:Q;
      [|reflexivity].
    apply fence_prefix in Q as [-> Q].
    destruct (prefix "``" s) eqn:R.
    + assert (prefix fence (String "`" s) = true) by now apply fence_prefix.
      congruence.
    + rewrite (remove_keeps_short_runs _ R) in Q. discriminate.
Qed.

Lemma drop_append (w rest : string) : drop (String.length w) (w ++ rest) = rest.
Proof. induction w as [|c w IH]; [now destruct rest | exact IH]. Qed.

Lemma strip_leading_suffix (ws : list string) (fuel : nat) :
  forall s, exists w, s = w ++ strip_leading ws fuel s.
Proof.
  induction fuel as [|fuel IH]; intros s; [now exists ""|].
  cbn [strip_leading].
  destruct (find (fun w => prefix w s) ws) as [w|] eqn:F; [|now exists ""].
  apply find_some in F as [_ [rest ->]%prefix_spec]. rewrite drop_append.
  destruct (IH rest) as [w' E]. exists (w ++ w').
  now rewrite append_assoc, <- E.
Qed.

(** [trim] takes a piece out of the middle of its argument. *)
Lemma trim_piece (s : string) : exists a b, s = a ++ trim s ++ b.
Proof.
  unfold trim, trimStart.
  destruct (strip_leading_suffix whitespace (String.length s) s) as [a Ea].
  set (t := strip_leading whitespace (String.length s) s) in *.
  unfold trimEnd.
  destruct (strip_leading_suffix (map rev whitespace) (String.length t) (rev t))
    as [b Eb].
  set (u := strip_leading (map rev whitespace) (String.length t) (rev t)) in *.
  exists a, (rev b). rewrite <- rev_append, <- Eb, rev_involutive. exact Ea.
Qed.

Lemma includes_inside (a t b p : string) :
  includes t p = true -> includes (a ++ t ++ b) p = true.
Proof.
  rewrite !includes_spec. intros [pre [post ->]].
  exists (a ++ pre), (post ++ b). now rewrite !append_assoc.
Qed.

Lemma trim_includes (s p : string) :
  includes s p = false -> includes (trim s) p = false.
Proof.
  intros H. destruct (includes (trim s) p) eqn:T; [|reflexivity].
  destruct (trim_piece s) as [a [b E]].
  rewrite E, (includes_inside a _ b _ T) in H. discriminate.
Qed.

Lemma prefix_of_prefix (u t w : string) :
  prefix u t = true -> prefix u (t ++ w) = true.
Proof.
  rewrite !prefix_spec. intros [rest ->]. exists (rest ++ w).
  now rewrite append_assoc.
Qed.

Lemma trim_trimmed (s : string) : trimmed (trim s).
Proof.
  intros u Hu. split.
  - destruct (prefix u (trim s)) eqn:P; [|reflexivity].
    unfold trim in P.
    assert (E : exists w, trimStart s = trimEnd (trimStart s) ++ w).
    { unfold trimEnd.
      destruct (strip_leading_suffix (map rev whitespace)
                  (String.length (trimStart s)) (rev (trimStart s))) as [b Eb].
      exists (rev b). rewrite <- rev_append, <- Eb. now rewrite rev_involutive. }
    destruct E as [w E]. apply (prefix_of_prefix _ _ w) in P. rewrite <- E in P.
    rewrite (find_none _ _ (trimStart_done s) u Hu) in P. discriminate.
  - unfold trim.
    apply (find_none _ _ (trimEnd_done (trimStart s)) (rev u)).
    now apply in_map.
Qed.

Lemma or_else_trimmed (x : option string) (d : string) :
  (forall s, x = Some s -> trimmed s) -> trimmed d -> trimmed (or_else x d).
Proof.
  intros Hx Hd. destruct x as [s|]; [|exact Hd]. simpl.
  destruct (s =? ""); [exact Hd | now apply Hx].
Qed.

Lemma literal_trimmed (s : string) :
  forallb (fun u => negb (prefix u s) && negb (prefix (rev u) (rev s)))
    whitespace = true ->
  trimmed s.
Proof.
  intros H u Hu. rewrite forallb_forall in H.
  specialize (H u Hu). apply andb_prop in H as [H1 H2].
  now rewrite negb_true_iff in H1, H2.
Qed.

Lemma chain_trim (x : option string) (s : string) :
  chain x (fun t => Some (trim t)) = Some s -> trimmed s.
Proof.
  destruct x as [t|]; [|discriminate]. intros H. injection H as <-.
  apply trim_trimmed.
Qed.

Lemma extract_sql_no_fence (content : string) :
  includes (extract_sql content) fence = false.
Proof.
  unfold extract_sql. apply trim_includes.
  unfold remove_with_newline. now apply (remove_leaves_no_fence _ _ (le_n _)).
Qed.

(** X12.  Whatever the model replied, the SQL text taken from the reply
    holds no code fence: no three backquotes in a row are left in it. *)
Theorem sql_has_no_fence (content : string) :
  includes (tr_sql (parse_reply content)) fence = false.
Proof. exact (extract_sql_no_fence content). Qed.

(** X13.  The three fields come back without white space at either end,
    and the explanation is never empty (the fixed text stands in for a
    missing or blank one). *)
Theorem fields_are_trimmed (content : string) :
  trimmed (tr_sql (parse_reply content)) /\
  trimmed (tr_explanation (parse_reply content)) /\
  trimmed (tr_warning (parse_reply content)) /\
  tr_explanation (parse_reply content) <> "".
Proof.
  cbn [parse_reply tr_sql tr_explanation tr_warning].
  split; [|split; [|split]].
  - unfold extract_sql. apply trim_trimmed.
  - unfold extract_explanation. apply or_else_trimmed.
    + intros s. apply chain_trim.
    + apply literal_trimmed. vm_compute. reflexivity.
  - unfold extract_warning. apply or_else_trimmed.
    + intros s. apply chain_trim.
    + apply literal_trimmed. vm_compute. reflexivity.
  - unfold extract_explanation, or_else.
    destruct (chain _ _) as [s|]; [|discriminate].
    destruct (String.eqb_spec s ""); [discriminate | assumption].
Qed.

Lemma lower_upper_char (c : ascii) : lower_char (upper_char c) = lower_char c.
Proof. destruct c as [[] [] [] [] [] [] [] []]; reflexivity. Qed.

Lemma lower_lower_char (c : ascii) : lower_char (lower_char c) = lower_char c.
Proof. destruct c as [[] [] [] [] [] [] [] []]; reflexivity. Qed.

Lemma lower_of_upper (s : string) : toLowerCase (toUpperCase s) = toLowerCase s.
Proof.
  induction s as [|c s IH]; [reflexivity|].
  cbn. now rewrite lower_upper_char; f_equal.
Qed.

Lemma lower_of_lower (s : string) : toLowerCase (toLowerCase s) = toLowerCase s.
Proof.
  induction s as [|c s IH]; [reflexivity|].
  cbn. now rewrite lower_lower_char; f_equal.
Qed.

(** X14.  For a statement written in ASCII the check does not depend on
    the letter case: the text, its upper-case form and its lower-case
    form are flagged alike.  (Outside ASCII this fails: the ligature
    U+FB06 upper-cases to [ST], which can complete a keyword.) *)
Theorem classifier_ignores_case (sql : string) :
  ascii_text sql = true ->
  isDestructive (toUpperCase sql) = isDestructive sql /\
  isDestructive (toLowerCase sql) = isDestructive sql.
Proof.
  intros _. unfold isDestructive. cbv zeta.
  now rewrite lower_of_upper, lower_of_lower.
Qed.

Lemma classifier_ignores_case_witness :
  isDestructive (toUpperCase "Drop table orders")
  = isDestructive "Drop table orders" /\
  isDestructive (toLowerCase "Drop table orders")
  = isDestructive "Drop table orders".
Proof. apply (classifier_ignores_case "Drop table orders"). reflexivity. Defined.

Lemma caution_not_empty : caution <> "".
Proof. discriminate. Qed.

Lemma classify_destructive (sql warning : string) :
  isDestructive sql = true -> classify sql warning <> "".
Proof.
  intros D. unfold classify. rewrite D. cbn [andb].
  destruct (String.eqb_spec warning ""); [exact caution_not_empty | assumption].
Qed.

End ReplyFacts.

(** ** Ask: what is executed and what is reported *)

Section AskAnswers.
Import Ask.

Lemma store_call_in_run {S : Type} (w : world S) (s : S) (req : Request)
    (q : string) (ps : option (list value)) (r : outcome db_result) :
  In (StoreCall q ps r) (calls w s (ask req)) ->
  exists sy us content,
    In (ModelCall sy us (Resolved content)) (calls w s (ask req)) /\
    q = tr_sql (translate content) /\ ps = None /\
    answer w s (ask req) = reply (translate content) r.
Proof.
  destruct (ask_run w s req)
    as [ | rs m L A | schemas m L E | schemas text m L E
         | schemas text content r' L E]; intros H.
  - contradiction.
  - apply lookup_events_only in H as [t [r0 H]]. discriminate.
  - apply lookup_events_only in H as [t [r0 H]]. discriminate.
  - apply in_app_or in H as [H|[H|[]]];
      [apply lookup_events_only in H as [t [r0 H]]|]; discriminate.
  - apply in_app_or in H as [H|[H|[H|[]]]];
      [apply lookup_events_only in H as [t [r0 H]]; discriminate
      | discriminate |].
    injection H as <- <- <-. eexists _, _, content.
    split; [apply in_or_app; right; left; reflexivity|]. now repeat split.
Qed.

(** X15.  The statement sent to the store is the SQL text taken from the
    reply of the model, sent without parameters; it holds no code fence
    and no white space at either end. *)
Theorem executed_sql_is_extracted {S : Type} (w : world S) (s : S)
    (req : Request) (q : string) (ps : option (list value))
    (r : outcome db_result) :
  In (StoreCall q ps r) (calls w s (ask req)) ->
  ps = None /\
  (exists sy us content,
      In (ModelCall sy us (Resolved content)) (calls w s (ask req)) /\
      q = tr_sql (parse_reply content)) /\
  includes q fence = false /\ trimmed q.
Proof.
  intros H. destruct (store_call_in_run _ _ _ _ _ _ H)
    as [sy [us [content [M [-> [-> _]]]]]].
  split; [reflexivity|]. split; [now exists sy, us, content|].
  cbn [translate tr_sql parse_reply]. split.
  - apply extract_sql_no_fence.
  - unfold extract_sql. apply trim_trimmed.
Qed.

Lemma executed_sql_is_extracted_witness :
  includes "DELETE FROM orders" fence = false /\ trimmed "DELETE FROM orders".
Proof.
  destruct (executed_sql_is_extracted obliging tt clear_orders
              "DELETE FROM orders" None (Resolved (Header 3)))
    as [_ [_ H]]; [|exact H].
  right. right. left. vm_compute. reflexivity.
Defined.

(** X16.  Every reply of the model leads to a statement: the text taken
    from the reply goes to the store whatever it is, and a reply without
    the marker [SQL_QUERY:] sends the empty statement. *)
Theorem every_reply_is_executed {S : Type} (w : world S) (s : S)
    (req : Request) (sy us content : string) :
  In (ModelCall sy us (Resolved content)) (calls w s (ask req)) ->
  (exists r,
      In (StoreCall (tr_sql (parse_reply content)) None r)
        (calls w s (ask req))) /\
  (includes content SQL_QUERY = false -> tr_sql (parse_reply content) = "").
Proof.
  intros H. split.
  - destruct (ask_run w s req)
      as [ | rs m L A | schemas m L E | schemas text m L E
           | schemas text content' r' L E].
    + contradiction.
    + apply lookup_events_only in H as [t [r0 H]]. discriminate.
    + apply lookup_events_only in H as [t [r0 H]]. discriminate.
    + apply in_app_or in H as [H|[H|[]]];
        [apply lookup_events_only in H as [t [r0 H]]|]; discriminate.
    + apply in_app_or in H as [H|[H|[H|[]]]];
        [apply lookup_events_only in H as [t [r0 H]]; discriminate
        | | discriminate].
      injection H as _ _ <-. exists r'.
      apply in_or_app. right. right. left. reflexivity.
  - intros M. cbn [parse_reply tr_sql]. unfold extract_sql.
    now rewrite (second_piece_missing _ _ M).
Qed.

(** A world whose model leaves the marker out and whose store rejects
    the empty statement. *)
Lemma every_reply_is_executed_witness :
  exists r,
    In (StoreCall "" None r)
      (calls (mkWorld
                (fun (_ : unit) (_ : string) =>
                   (Resolved [mkColumn "id" "int"], tt))
                (fun _ _ _ => (Resolved "SELECT 1", tt))
                (fun _ _ _ => (Rejected "Query was empty", tt))) tt
         (ask (mkRequest (One "orders") (Some "how many?") None))).
Proof.
  destruct (every_reply_is_executed
              (mkWorld
                 (fun (_ : unit) (_ : string) =>
                    (Resolved [mkColumn "id" "int"], tt))
                 (fun _ _ _ => (Resolved "SELECT 1", tt))
                 (fun _ _ _ => (Rejected "Query was empty", tt))) tt
              (mkRequest (One "orders") (Some "how many?") None)
              system_message (prompt "orders(id int)" "how many?") "SELECT 1")
    as [[r H] _].
  - right. left. reflexivity.
  - exists r. exact H.
Defined.

(** X17.  The answer follows the store.  A statement the store rejects
    is answered 400 with the store's message.  One it accepts is answered
    200, and the answer reports the statement that was sent, the rows and
    their number, the number of affected rows, and an explanation that is
    not empty. *)
Theorem ask_answer_follows_store {S : Type} (w : world S) (s : S)
    (req : Request) (q : string) (ps : option (list value))
    (r : outcome db_result) :
  In (StoreCall q ps r) (calls w s (ask req)) ->
  match r with
  | Rejected message => answer w s (ask req) = error 400 message
  | Resolved results =>
      status (answer w s (ask req)) = 200 /\
      field "sql" (body (answer w s (ask req))) = Some (VStr q) /\
      field "results" (body (answer w s (ask req)))
      = Some (VArr (rows_of results)) /\
      field "rowCount" (body (answer w s (ask req)))
      = Some (num_of_nat (List.length (rows_of results))) /\
      field "affectedRows" (body (answer w s (ask req)))
      = Some (num_of_nat (affected_of results)) /\
      exists text,
        field "explanation" (body (answer w s (ask req))) = Some (VStr text) /\
        text <> ""
  end.
Proof.
  intros H. destruct (store_call_in_run _ _ _ _ _ _ H)
    as [sy [us [content [_ [-> [_ ->]]]]]].
  destruct r as [results|message]; [|reflexivity].
  repeat split. eexists. split; [reflexivity|].
  cbn [translate tr_explanation parse_reply].
  unfold extract_explanation, or_else.
  destruct (chain _ _) as [t|]; [|discriminate].
  destruct (String.eqb_spec t ""); [discriminate | assumption].
Qed.

Lemma ask_answer_follows_store_witness :
  status (answer obliging tt (ask clear_orders)) = 200 /\
  field "sql" (body (answer obliging tt (ask clear_orders)))
  = Some (VStr "DELETE FROM orders") /\
  field "affectedRows" (body (answer obliging tt (ask clear_orders)))
  = Some (num_of_nat 3).
Proof.
  pose proof (ask_answer_follows_store obliging tt clear_orders
                "DELETE FROM orders" None (Resolved (Header 3))) as H.
  cbv beta iota in H. destruct H as [H1 [H2 [_ [_ [H3 _]]]]].
  - right. right. left. vm_compute. reflexivity.
  - split; [exact H1 | split; [exact H2 | exact H3]].
Defined.

(** X18.  A destructive statement is not held back: it is sent like any
    other, and when the store accepts it the answer carries a warning
    that is not empty (the model's own, or the fixed caution). *)
Theorem destructive_statement_is_warned {S : Type} (w : world S) (s : S)
    (req : Request) (q : string) (ps : option (list value))
    (results : db_result) :
  In (StoreCall q ps (Resolved results)) (calls w s (ask req)) ->
  isDestructive q = true ->
  exists text,
    field "warning" (body (answer w s (ask req))) = Some (VStr text) /\
    text <> "".
Proof.
  intros H D. destruct (store_call_in_run _ _ _ _ _ _ H)
    as [sy [us [content [_ [-> [_ ->]]]]]].
  eexists. split; [reflexivity|].
  cbn [translate tr_warning tr_sql] in *. now apply classify_destructive.
Qed.

Lemma destructive_statement_is_warned_witness :
  exists text,
    field "warning" (body (answer obliging tt (ask clear_orders)))
    = Some (VStr text) /\ text <> "".
Proof.
  apply (destructive_statement_is_warned obliging tt clear_orders
           "DELETE FROM orders" None (Header 3)).
  - right. right. left. vm_compute. reflexivity.
  - reflexivity.
Defined.

End AskAnswers.

(** ** Upload: from the file to the table *)

Section UploadRuns.
Import Upload.

Lemma play_inserts {S A : Type} (h : host S) (table : string)
    (columns : list string) (rows : list row) :
  forall (k : list (outcome unit) -> job A) (s : S),
  exists outcomes s1,
    List.length outcomes = List.length rows /\
    play h s (inserts table columns rows k) =
    let '(a, tr, s2) := play h s1 (k outcomes) in
    (a, (insert_steps table columns rows outcomes ++ tr)%list, s2).
Proof.
  induction rows as [|r rest IH]; intros k s.
  - exists [], s. split; [reflexivity|]. cbn [inserts].
    destruct (play h s (k [])) as [[a tr] s2]. reflexivity.
  - cbn [inserts play]. destruct (query h s _ _) as [o s1].
    destruct (IH (fun os => k (o :: os)) s1) as [outcomes [s2 [L E]]].
    exists (o :: outcomes), s2. split; [simpl; now rewrite L|].
    rewrite E. destruct (play h s2 (k (o :: outcomes))) as [[a tr] s3].
    reflexivity.
Qed.

Lemma play_failed {S : Type} (h : host S) (s : S) (f message : string) :
  exists found,
    result h s (failed f message) = error 500 message /\
    steps h s (failed f message) = cleanup f found.
Proof.
  unfold result, steps, failed. cbn [play].
  destruct (exists_file h s f) as [found s1]. exists found.
  destruct found; split; reflexivity.
Qed.

(** The fields of a request that passes the first check. *)
Lemma first_check (req : Request) :
  negb (truthy (tableName req)) || negb (truthy (filePath req)) = false ->
  exists table f,
    tableName req = Some table /\ table <> "" /\
    filePath req = Some f /\ f <> "".
Proof.
  intros H. apply orb_false_elim in H as [H1 H2].
  apply negb_false_iff in H1, H2.
  destruct (tableName req) as [table|]; [|discriminate].
  destruct (filePath req) as [f|]; [|discriminate].
  exists table, f. simpl in H1, H2.
  destruct (String.eqb_spec table ""); [discriminate|].
  destruct (String.eqb_spec f ""); [discriminate|]. now repeat split.
Qed.

(** Every run stops at the first check or at one of the eight points. *)
Lemma upload_run {S : Type} (h : host S) (s : S) (req : Request) :
  (upload req = Done (error 400 "Table name and file required") /\
   (truthy (tableName req) = false \/ truthy (filePath req) = false)) \/
  exists table f,
    tableName req = Some table /\ table <> "" /\
    filePath req = Some f /\ f <> "" /\
    upload_stops req table f (result h s (upload req)) (steps h s (upload req)).
Proof.
  unfold upload.
  destruct (negb (truthy (tableName req)) || negb (truthy (filePath req)))
    eqn:C.
  - left. split; [reflexivity|]. apply orb_true_iff in C as [C|C];
      apply negb_true_iff in C; auto.
  - right. destruct (first_check _ C) as [table [f [Ht [Nt [Hf Nf]]]]].
    exists table, f. rewrite Ht, Hf. cbn [template].
    repeat (split; [assumption || reflexivity|]).
    destruct (valid_table_name table) eqn:V; cbn [negb];
      [|now constructor].
    destruct (parser_of (fileExt req)) as [p|] eqn:P; [|now constructor].
    unfold result, steps. cbn [play].
    destruct (parse_file h s p f) as [[rows|message] s1].
    + unfold load. destruct rows as [|first rest]; [now constructor|].
      cbn [play]. destruct (query h s1 _ _) as [[u|message] s2].
      * cbn [play]. destruct (query h s2 _ _) as [[u'|message] s3].
        -- destruct (play_inserts h table (map fst first) (first :: rest)
                       (fun outcomes =>
                          match Ask.all outcomes with
                          | Resolved _ =>
                              Unlink f
                                (Done (created table (first :: rest)
                                         (map fst first)))
                          | Rejected message => failed f message
                          end) s3) as [outcomes [s4 [L E]]].
           rewrite E. destruct (Ask.all outcomes) as [done|message] eqn:A.
           ++ cbn [play fst snd]. apply all_resolved in A. subst outcomes.
              rewrite length_map in L. now apply stops_at_end.
           ++ destruct (play_failed h s4 f message) as [found [R T]].
              unfold result, steps in R, T.
              destruct (play h s4 (failed f message)) as [[a tr] s5].
              cbn [fst snd] in *. subst a tr. now apply stops_at_insert.
        -- destruct (play_failed h s3 f message) as [found [R T]].
           unfold result, steps in R, T.
           destruct (play h s3 (failed f message)) as [[a tr] s5].
           cbn [fst snd] in *. subst a tr. now apply stops_at_create.
      * destruct (play_failed h s2 f message) as [found [R T]].
        unfold result, steps in R, T.
        destruct (play h s2 (failed f message)) as [[a tr] s5].
        cbn [fst snd] in *. subst a tr. now apply stops_at_drop.
    + destruct (play_failed h s1 f message) as [found [R T]].
      unfold result, steps in R, T.
      destruct (play h s1 (failed f message)) as [[a tr] s5].
      cbn [fst snd] in *. subst a tr. now apply stops_at_parser.
Qed.

(** Looks for a step in a list given by its elements. *)
Ltac find_step :=
  match goal with
  | |- ?x = ?x => reflexivity
  | |- _ \/ _ => (left; find_step) || (right; find_step)
  | |- In _ (_ ++ _) => apply in_or_app; find_step
  | |- In _ (_ :: _) => cbn [In]; find_step
  end.

Lemma insert_steps_in (table : string) (columns : list string)
    (rows : list row) (outcomes : list (outcome unit)) (st : step) :
  In st (insert_steps table columns rows outcomes) ->
  exists r o, In (r, o) (combine rows outcomes) /\
              st = Queried (insertSQL columns) (insert_params table columns r) o.
Proof.
  unfold insert_steps. rewrite in_map_iff.
  intros [[r o] [<- H]]. now exists r, o.
Qed.

Lemma combine_resolved_units (rows : list row) (done : list unit) (r : row)
    (o : outcome unit) :
  In (r, o) (combine rows (map (@Resolved unit) done)) -> exists u, o = Resolved u.
Proof.
  revert done; induction rows as [|x rows IH]; intros [|u done] H;
    try contradiction.
  destruct H as [H|H]; [injection H as _ <-; now exists u | now apply (IH done)].
Qed.

Lemma rejected_insert (table : string) (columns : list string)
    (rows : list row) (outcomes : list (outcome unit)) (message : string) :
  List.length outcomes = List.length rows ->
  Ask.all outcomes = Rejected message ->
  exists r,
    In (Queried (insertSQL columns) (insert_params table columns r)
          (Rejected message))
      (insert_steps table columns rows outcomes).
Proof.
  intros L A. apply all_rejected in A. unfold insert_steps. revert outcomes L A.
  induction rows as [|x rows IH]; intros [|o outcomes] L A;
    try discriminate; try contradiction.
  injection L as L. destruct A as [-> | A].
  - exists x. now left.
  - destruct (IH outcomes L A) as [r H]. exists r. now right.
Qed.

Lemma failed_step_cases (message : string) (st : step) :
  failed_step message st ->
  match st with
  | Parsed _ _ (Rejected m) | Queried _ _ (Rejected m) => m = message
  | _ => False
  end.
Proof. now intros [[p [f ->]] | [q [ps ->]]]. Qed.

(** X19.  A table name with a character that is no letter, digit or
    underscore stops the upload before anything is parsed or sent: the
    stored file is removed and the answer is 400 with the name in the
    message. *)
Theorem upload_rejects_unsafe_name {S : Type} (h : host S) (s : S)
    (req : Request) (table f : string) :
  tableName req = Some table -> table <> "" ->
  filePath req = Some f -> f <> "" ->
  valid_table_name table = false ->
  steps h s (upload req) = [Unlinked f] /\
  result h s (upload req) = error 400 (invalid_name table).
Proof.
  intros Ht Nt Hf Nf V. unfold upload. rewrite Ht, Hf. cbn [truthy template].
  rewrite (proj2 (String.eqb_neq table "") Nt), (proj2 (String.eqb_neq f "") Nf).
  cbn [negb orb]. rewrite V. split; reflexivity.
Qed.

Lemma upload_rejects_unsafe_name_witness :
  steps willing tt
    (upload (mkRequest (Some unchecked_name)
               (Some (mkFile "uploads/f3a9" (Some "people.csv")))))
  = [Unlinked "uploads/f3a9"].
Proof.
  apply (upload_rejects_unsafe_name willing tt
           (mkRequest (Some unchecked_name)
              (Some (mkFile "uploads/f3a9" (Some "people.csv"))))
           (table := unchecked_name) (f := "uploads/f3a9"));
    try reflexivity; discriminate.
Defined.

(** X20.  Every statement of an upload is one of three fixed texts made
    of keywords and placeholders ([DROP TABLE IF EXISTS ??], the CREATE
    TABLE and the INSERT over the columns of the first row), and its first
    parameter is the table name of the request, which is made of
    letters, digits and underscores only. *)
Theorem upload_statements_are_safe {S : Type} (h : host S) (s : S)
    (req : Request) (q : string) (ps : list (option value))
    (r : outcome unit) :
  In (Queried q ps r) (steps h s (upload req)) ->
  exists table columns,
    tableName req = Some table /\ valid_table_name table = true /\
    hd_error ps = Some (Some (VStr table)) /\
    (q = "DROP TABLE IF EXISTS ??" \/ q = createTableSQL columns
     \/ q = insertSQL columns).
Proof.
  destruct (upload_run h s req) as [[E _] | [table [f [Ht [_ [_ [_ R]]]]]]].
  - unfold steps. rewrite E. intros [].
  - intros H.
    assert (K : forall columns rows outcomes,
               In (Queried q ps r) (insert_steps table columns rows outcomes) ->
               hd_error ps = Some (Some (VStr table)) /\ q = insertSQL columns).
    { intros columns rows outcomes Hin.
      apply insert_steps_in in Hin as [x [o [_ Hin]]].
      injection Hin as -> -> _. split; reflexivity. }
    unfold cleanup in *.
    destruct R; simpl in H;
      repeat match goal with
        | H : _ \/ _ |- _ => destruct H as [H|H]
        | H : False |- _ => destruct H
        | H : In _ (_ ++ _) |- _ => apply in_app_or in H
        | H : In _ (if ?b then _ else _) |- _ => destruct b; simpl in H
        | H : drop_step _ _ = Queried _ _ _ |- _ =>
            injection H as <- <- _; exists table, []; auto
        | H : create_step _ ?c _ = Queried _ _ _ |- _ =>
            injection H as <- <- _; exists table, c; auto 6
        | H : In _ (insert_steps _ ?c _ _) |- _ =>
            apply K in H as [H ->]; exists table, c; auto 6
        | H : In _ (cleanup _ ?b) |- _ =>
            unfold cleanup in H; destruct b; simpl in H
        | H : In _ [_] |- _ => destruct H as [H|[]]
        end;
      try discriminate.
Qed.

Lemma upload_statements_are_safe_witness :
  exists table columns,
    tableName people_csv = Some table /\ valid_table_name table = true /\
    hd_error [Some (VStr "people")] = Some (Some (VStr table)) /\
    ("DROP TABLE IF EXISTS ??" = "DROP TABLE IF EXISTS ??"
     \/ "DROP TABLE IF EXISTS ??" = createTableSQL columns
     \/ "DROP TABLE IF EXISTS ??" = insertSQL columns).
Proof.
  apply (upload_statements_are_safe willing tt people_csv
           "DROP TABLE IF EXISTS ??" [Some (VStr "people")] (Resolved tt)).
  right. left. reflexivity.
Defined.

(** X21.  When every parsed row has every column of the first row, an
    answer 200 means the whole table is there: the file was parsed to at
    least one row, the table was dropped and created with the columns of
    the first row, one INSERT was accepted for every row, in order, with
    the table name, the columns and the row's values of these columns as
    parameters, the stored file was removed, and the answer reports the
    numbers of rows and columns. *)
Theorem upload_success {S : Type} (h : host S) (s : S) (req : Request) :
  (forall p f rows,
      In (Parsed p f (Resolved rows)) (steps h s (upload req)) ->
      rectangular rows) ->
  status (result h s (upload req)) = 200 ->
  exists table f p first rest u u' done,
    tableName req = Some table /\ filePath req = Some f /\
    parser_of (fileExt req) = Some p /\
    List.length done = List.length (first :: rest) /\
    steps h s (upload req)
    = (Parsed p f (Resolved (first :: rest))
       :: drop_step table (Resolved u)
       :: create_step table (map fst first) (Resolved u')
       :: insert_steps table (map fst first) (first :: rest)
            (map (@Resolved unit) done)
       ++ [Unlinked f])%list /\
    result h s (upload req) = created table (first :: rest) (map fst first).
Proof.
  intros _.
  destruct (upload_run h s req) as [[E _] | [table [f [Ht [_ [Hf [_ R]]]]]]].
  - unfold result. rewrite E. discriminate.
  - intros H. destruct R; try discriminate H.
    exists table, f, p, first, rest, u, u', done. now repeat split.
Qed.

Lemma upload_success_witness :
  status (result tidy tt (upload people_csv)) = 200 /\
  exists table f p first rest u u' done,
    tableName people_csv = Some table /\ filePath people_csv = Some f /\
    parser_of (fileExt people_csv) = Some p /\
    List.length done = List.length (first :: rest) /\
    steps tidy tt (upload people_csv)
    = (Parsed p f (Resolved (first :: rest))
       :: drop_step table (Resolved u)
       :: create_step table (map fst first) (Resolved u')
       :: insert_steps table (map fst first) (first :: rest)
            (map (@Resolved unit) done)
       ++ [Unlinked f])%list /\
    result tidy tt (upload people_csv)
    = created table (first :: rest) (map fst first).
Proof.
  split; [reflexivity|].
  apply (upload_success tidy tt people_csv); [|reflexivity].
  intros p f rows H. vm_compute in H.
  destruct H as [H|[H|[H|[H|[H|[H|[]]]]]]]; try discriminate H.
  injection H as _ _ <-. intros r c Hr Hc.
  destruct Hr as [<-|[<-|[]]]; destruct Hc as [<-|[<-|[]]]; discriminate.
Defined.

(** X22.  Past the first check the stored file does not stay behind: it
    is removed, or the handler found it gone already.  A request that
    fails the first check (no table name, or no file) is answered 400
    without any step: a file stored with it is not removed. *)
Theorem upload_removes_the_file {S : Type} (h : host S) (s : S)
    (req : Request) :
  (truthy (tableName req) = false \/ truthy (filePath req) = false ->
   steps h s (upload req) = [] /\
   result h s (upload req) = error 400 "Table name and file required") /\
  (forall f,
      truthy (tableName req) = true -> filePath req = Some f -> f <> "" ->
      In (Unlinked f) (steps h s (upload req)) \/
      In (Checked f false) (steps h s (upload req))).
Proof.
  split.
  - intros H. unfold upload.
    destruct H as [-> | ->]; [|rewrite orb_true_r]; split; reflexivity.
  - intros f Ht Hf Nf.
    destruct (upload_run h s req) as [[_ [E|E]] | [t [f' [_ [_ [Hf' [_ R]]]]]]].
    + congruence.
    + rewrite Hf in E. simpl in E.
      rewrite (proj2 (String.eqb_neq f "") Nf) in E. discriminate.
    + rewrite Hf in Hf'. injection Hf' as <-. unfold cleanup in R.
      destruct R; try destruct found; unfold cleanup; find_step.
Qed.

Lemma upload_removes_the_file_witness :
  steps willing tt
    (upload (mkRequest None (Some (mkFile "uploads/f3a9" (Some "people.csv")))))
  = [] /\
  (In (Unlinked "uploads/f3a9") (steps willing tt (upload people_csv)) \/
   In (Checked "uploads/f3a9" false) (steps willing tt (upload people_csv))).
Proof.
  split.
  - apply (upload_removes_the_file willing tt
             (mkRequest None (Some (mkFile "uploads/f3a9" (Some "people.csv"))))).
    left. reflexivity.
  - apply (upload_removes_the_file willing tt people_csv);
      [reflexivity | reflexivity | discriminate].
Defined.

(** X23.  Whenever the parser or a statement of an upload fails, the
    upload is answered 500; and when the failure is the parser's, the
    DROP's or the CREATE's, the answer carries its message. *)
Theorem upload_failure {S : Type} (h : host S) (s : S) (req : Request)
    (st : step) (message : string) :
  In st (steps h s (upload req)) -> failed_step message st ->
  status (result h s (upload req)) = 500 /\
  ((forall columns ps,
       st <> Queried (insertSQL columns) ps (Rejected message)) ->
   result h s (upload req) = error 500 message).
Proof.
  intros Hin Hf. pose proof (failed_step_cases Hf) as Hc.
  destruct (upload_run h s req) as [[E _] | [table [f [_ [_ [_ [_ R]]]]]]].
  { unfold steps in Hin. rewrite E in Hin. contradiction. }
  destruct R; unfold drop_step, create_step, cleanup in Hin;
    repeat (rewrite in_app_iff in Hin || cbn [In] in Hin);
    repeat match goal with
      | H : _ \/ _ |- _ => destruct H as [H|H]
      | H : False |- _ => destruct H
      | H : In _ (if ?b then _ else _) |- _ => destruct b; cbn [In] in H
      | H : _ = st |- _ => subst st; cbn in Hc; try contradiction
      end;
    try (subst; split; [reflexivity | intros _; reflexivity]).
  - apply insert_steps_in in Hin as [x [o [Hx ->]]].
    destruct o as [v|m]; cbn in Hc; [contradiction | subst m].
    split; [reflexivity|]. intros NI. exfalso. now eapply NI.
  - apply insert_steps_in in Hin as [x [o [Hx ->]]].
    apply combine_resolved_units in Hx as [v ->]. contradiction.
Qed.

Lemma upload_failure_witness :
  status (result unwilling tt (upload people_csv)) = 500 /\
  result unwilling tt (upload people_csv) = error 500 "read only".
Proof.
  destruct (@upload_failure unit unwilling tt people_csv
              (drop_step "people" (Rejected "read only")) "read only")
    as [St Msg].
  - right. left. reflexivity.
  - right. now exists "DROP TABLE IF EXISTS ??", [Some (VStr "people")].
  - split; [exact St|]. apply Msg. intros columns ps. discriminate.
Defined.

Lemma last_of_cons (r : list string) :
  forall x y, last (y :: r) x = last r y.
Proof.
  induction r as [|z r IH]; intros x y; [reflexivity|].
  change (last (y :: z :: r) x) with (last (z :: r) x).
  now rewrite (IH x z), (IH y z).
Qed.

Lemma pop_cons (x : string) (l : list string) (e : string) :
  pop l = Some e -> pop (x :: l) = Some e.
Proof.
  destruct l as [|y r]; [discriminate|]. cbn [pop]. intros H.
  injection H as <-. f_equal. apply last_of_cons.
Qed.

Lemma pop_after_dot (ext base : string) :
  includes ext "." = false ->
  forall cur, pop (split_go "." 0 cur (base ++ "." ++ ext)) = Some ext.
Proof.
  intros H. induction base as [|c base IH]; intros cur.
  - cbn [append split_go].
    replace (prefix "." (String "." ext)) with true
      by (symmetry; apply prefix_spec; now exists ext).
    cbn [String.length Nat.sub]. now rewrite (split_go_missing _ _ "" H).
  - cbn [append split_go String.length Nat.sub].
    destruct (prefix "." _).
    + apply pop_cons, IH.
    + apply IH.
Qed.

(** X24.  The kind of a file is read off its original name: the text
    after the last dot, in lower case; a name without a dot counts as its
    own extension. *)
Theorem extension_after_last_dot (req : Request) (fl : File) :
  file req = Some fl ->
  (forall base ext,
      originalname fl = Some (base ++ "." ++ ext) ->
      includes ext "." = false ->
      fileExt req = Some (toLowerCase ext)) /\
  (forall name,
      originalname fl = Some name -> includes name "." = false ->
      fileExt req = Some (toLowerCase name)).
Proof.
  intros Hf. unfold fileExt. rewrite Hf. cbn [chain]. split.
  - intros base ext -> H. cbn [chain]. unfold split.
    now rewrite (pop_after_dot _ base H).
  - intros name -> H. cbn [chain]. now rewrite (split_missing _ _ H).
Qed.

Lemma extension_after_last_dot_witness :
  fileExt people_csv = Some "csv" /\
  fileExt (mkRequest (Some "t") (Some (mkFile "uploads/77" (Some "JSON"))))
  = Some "json".
Proof.
  split.
  - apply (proj1 (extension_after_last_dot people_csv eq_refl) "People.2024" "CSV");
      reflexivity.
  - apply (proj2 (extension_after_last_dot
                    (mkRequest (Some "t")
                       (Some (mkFile "uploads/77" (Some "JSON"))))
                    eq_refl) "JSON"); reflexivity.
Defined.

End UploadRuns.

(** ** The reply of the model: reading back the format asked for *)

Section ReplyRoundTrip.

(** A pattern without [c] cannot reach across a [c]. *)
Lemma prefix_stop (c : ascii) (p : string) :
  without c p = true ->
  forall a b, prefix p (a ++ String c b) = prefix p a.
Proof.
  induction p as [|d p IH]; intros W a b.
  - now destruct a.
  - cbn [without all_chars] in W. apply andb_prop in W as [Wd Wp].
    apply negb_true_iff, Ascii.eqb_neq in Wd.
    destruct a as [|x a]; cbn [append prefix].
    + destruct (ascii_dec d c); [contradiction | reflexivity].
    + destruct (ascii_dec d x); [now apply IH | reflexivity].
Qed.

Lemma prefix_stop_nil (c : ascii) (p b : string) :
  without c p = true -> prefix p (String c b) = prefix p "".
Proof. intros W. exact (@prefix_stop c p W "" b). Qed.

Lemma prefix_stop_cons (c x : ascii) (p a b : string) :
  without c p = true ->
  prefix p (String x (a ++ String c b)) = prefix p (String x a).
Proof. intros W. exact (@prefix_stop c p W (String x a) b). Qed.

Lemma includes_stop (c : ascii) (p : string) :
  without c p = true ->
  forall a b, includes (a ++ String c b) p = includes a p || includes b p.
Proof.
  intros W a b. induction a as [|x a IH].
  - cbn [append includes]. rewrite (@prefix_stop_nil c p b W).
    now rewrite orb_false_r.
  - cbn [append includes].
    rewrite (@prefix_stop_cons c x p a b W), IH, orb_assoc. reflexivity.
Qed.

Lemma split_go_skip (sep : string) (x : string) :
  forall cur b,
    split_go sep (String.length x) cur (x ++ b) = split_go sep 0 cur b.
Proof. induction x as [|c x IH]; intros cur b; [reflexivity | apply IH]. Qed.

(** At an occurrence of the separator the piece ends. *)
Lemma split_go_match (sep cur b : string) :
  sep <> "" -> split_go sep 0 cur (sep ++ b) = cur :: split_go sep 0 "" b.
Proof.
  intros N. destruct sep as [|m sep]; [contradiction|].
  cbn [append split_go].
  replace (prefix (String m sep) (String m (sep ++ b))) with true
    by (symmetry; apply prefix_spec; now exists b).
  cbn [String.length Nat.sub]. rewrite Nat.sub_0_r. now rewrite split_go_skip.
Qed.

(** The first piece runs up to a separator that follows a [c], when the
    separator holds no [c] and does not occur before. *)
Lemma split_go_first (c : ascii) (sep : string) (b : string) :
  without c sep = true -> sep <> "" ->
  forall a cur,
    includes a sep = false ->
    split_go sep 0 cur (a ++ String c (sep ++ b))
    = (cur ++ a ++ String c "") :: split_go sep 0 "" b.
Proof.
  intros W N. induction a as [|x a IH]; intros cur H.
  - cbn [append split_go]. rewrite (@prefix_stop_nil c sep (sep ++ b) W).
    replace (prefix sep "") with false by (now destruct sep).
    now rewrite split_go_match.
  - apply includes_tail in H as [Hp Hi].
    cbn [append split_go]. rewrite (@prefix_stop_cons c x sep a (sep ++ b) W), Hp.
    rewrite IH by assumption. now rewrite !append_assoc.
Qed.

Lemma remove_missing (pat : string) (s : string) :
  includes s pat = false -> remove_with_newline pat s = s.
Proof.
  unfold remove_with_newline. induction s as [|c s IH]; intros H;
    [reflexivity|].
  apply includes_tail in H as [Hp Hi]. cbn [remove_go andb].
  now rewrite Hp, (IH Hi).
Qed.

Lemma prefix_empty (s : string) : prefix "" s = true.
Proof. now destruct s. Qed.

Lemma strip_leading_fixed (ws : list string) (fuel : nat) (s : string) :
  (forall u, In u ws -> prefix u s = false) -> strip_leading ws fuel s = s.
Proof.
  intros H. destruct fuel; [reflexivity|]. cbn [strip_leading].
  now rewrite (find_nothing _ _ H).
Qed.

Lemma trimStart_fixed (s : string) : trimmed s -> trimStart s = s.
Proof.
  intros T. apply strip_leading_fixed. intros u Hu. apply (T u Hu).
Qed.

Lemma trimEnd_fixed (s : string) : trimmed s -> trimEnd s = s.
Proof.
  intros T. unfold trimEnd. rewrite strip_leading_fixed.
  - apply rev_involutive.
  - intros w [u [<- Hu]]%in_map_iff. apply (T u Hu).
Qed.

(** A line feed at the start goes first. *)
Lemma trimStart_lf (t : string) : trimStart (String LF t) = trimStart t.
Proof.
  unfold trimStart. cbn [String.length strip_leading].
  replace (find (fun w => prefix w (String LF t)) whitespace)
    with (Some (String LF "")); [reflexivity|].
  unfold whitespace. cbn. now rewrite prefix_empty.
Qed.

(** And a line feed at the end. *)
Lemma trimEnd_lf (t : string) : trimEnd (t ++ String LF "") = trimEnd t.
Proof.
  unfold trimEnd. rewrite rev_append, length_append, Nat.add_comm.
  cbn [String.length Nat.add rev rev_onto append strip_leading].
  replace (find (fun w => prefix w (String LF (rev t))) (map rev whitespace))
    with (Some (String LF "")); [reflexivity|].
  unfold whitespace. cbn. now rewrite prefix_empty.
Qed.

Lemma prefix_within (u : string) :
  forall s b, String.length u <= String.length s ->
              prefix u (s ++ b) = prefix u s.
Proof.
  induction u as [|d u IH]; intros s b L.
  - now rewrite !prefix_empty.
  - destruct s as [|x s]; [simpl in L; lia|]. cbn [append prefix].
    destruct (ascii_dec d x); [|reflexivity]. apply IH. simpl in L. lia.
Qed.

Lemma whitespace_units (u : string) :
  In u whitespace -> u = String LF "" \/ without LF u = true.
Proof.
  intros H. vm_compute in H.
  repeat (destruct H as [<-|H]; [(left; reflexivity) || (right; reflexivity)|]).
  contradiction.
Qed.

(** White space after a text that is not empty does not bring white
    space to its start. *)
Lemma trimStart_before_lf (s b : string) :
  s <> "" -> trimmed s ->
  trimStart (s ++ String LF b) = s ++ String LF b.
Proof.
  intros N T. apply strip_leading_fixed. intros u Hu.
  destruct (whitespace_units Hu) as [-> | W].
  - rewrite prefix_within; [apply (T _ Hu)|].
    destruct s; [contradiction | simpl; lia].
  - rewrite (@prefix_stop LF u W s b). apply (T _ Hu).
Qed.

(** The text between a line feed and two line feeds comes back. *)
Lemma trim_between_lines (s : string) :
  trimmed s -> trim (String LF (s ++ String LF (String LF ""))) = s.
Proof.
  intros T. unfold trim. rewrite trimStart_lf.
  destruct (String.eqb_spec s "") as [->|N]; [reflexivity|].
  rewrite (trimStart_before_lf _ N T).
  change (s ++ String LF (String LF ""))
    with (s ++ String LF "" ++ String LF "").
  rewrite <- append_assoc, !trimEnd_lf. now apply trimEnd_fixed.
Qed.

Lemma trim_after_line (s : string) : trimmed s -> trim (String LF s) = s.
Proof.
  intros T. unfold trim. rewrite trimStart_lf, (trimStart_fixed T).
  now apply trimEnd_fixed.
Qed.

Lemma marker_line (m : string) :
  In m [SQL_QUERY; BUSINESS_EXPLANATION; WARNING] ->
  (forall a b, includes (a ++ String LF b) m = includes a m || includes b m) /\
  (forall b, includes (String LF b) m = includes b m).
Proof.
  intros H. assert (W : without LF m = true)
    by (destruct H as [<-|[<-|[<-|[]]]]; reflexivity).
  split; [exact (@includes_stop LF m W)|]. intros b.
  pose proof (@includes_stop LF m W "" b) as E. cbn [append] in E. rewrite E.
  destruct H as [<-|[<-|[<-|[]]]]; reflexivity.
Qed.

Lemma fence_sql (s : string) :
  includes s fence = false -> includes s "```sql" = false.
Proof.
  intros H. destruct (includes s "```sql") eqn:E; [|reflexivity].
  apply includes_spec in E as [pre [post ->]].
  assert (includes (pre ++ "```sql" ++ post) fence = true)
    by (apply includes_spec; exists pre, ("sql" ++ post); reflexivity).
  congruence.
Qed.

(** Rewrites the occurrence tests of the markers across the lines of a
    reply. *)
Ltac across_lines :=
  repeat first
    [ rewrite (proj1 (@marker_line SQL_QUERY (or_introl eq_refl)))
    | rewrite (proj2 (@marker_line SQL_QUERY (or_introl eq_refl)))
    | rewrite (proj1 (@marker_line BUSINESS_EXPLANATION
                        (or_intror (or_introl eq_refl))))
    | rewrite (proj2 (@marker_line BUSINESS_EXPLANATION
                        (or_intror (or_introl eq_refl))))
    | rewrite (proj1 (@marker_line WARNING
                        (or_intror (or_intror (or_introl eq_refl)))))
    | rewrite (proj2 (@marker_line WARNING
                        (or_intror (or_intror (or_introl eq_refl))))) ].

Lemma or_else_same (s d : string) : s <> "" \/ d = "" -> or_else (Some s) d = s.
Proof.
  intros H. cbn [or_else]. destruct (String.eqb_spec s ""); [|reflexivity].
  destruct H; [contradiction | congruence].
Qed.

(** X25.  A reply in the format asked for is read back field by field:
    when the three texts hold no marker and no white space at their ends,
    the SQL holds no code fence and the explanation is not empty, parsing
    the formatted reply gives the three texts back. *)
Theorem reply_round_trip (sql explanation warning : string) :
  plain sql -> plain explanation -> plain warning ->
  trimmed sql -> trimmed explanation -> trimmed warning ->
  includes sql fence = false -> explanation <> "" ->
  parse_reply (format_reply sql explanation warning)
  = mkTranslation sql explanation warning.
Proof.
  intros [Ss [Sb Sw]] [Es [Eb Ew]] [Ws [Wb Ww]] Ts Te Tw F N.
  assert (Q : SQL_QUERY <> "") by discriminate.
  assert (B : BUSINESS_EXPLANATION <> "") by discriminate.
  assert (G : WARNING <> "") by discriminate.
  assert (LQ : without LF SQL_QUERY = true) by reflexivity.
  assert (LB : without LF BUSINESS_EXPLANATION = true) by reflexivity.
  assert (LG : without LF WARNING = true) by reflexivity.
  assert (QB : includes SQL_QUERY BUSINESS_EXPLANATION = false) by reflexivity.
  assert (QG : includes SQL_QUERY WARNING = false) by reflexivity.
  assert (BQ : includes BUSINESS_EXPLANATION SQL_QUERY = false) by reflexivity.
  assert (BG : includes BUSINESS_EXPLANATION WARNING = false) by reflexivity.
  assert (GQ : includes WARNING SQL_QUERY = false) by reflexivity.
  assert (GB : includes WARNING BUSINESS_EXPLANATION = false) by reflexivity.
  assert (EQ : forall m, includes "" m = prefix m "")
    by (intros m; cbn [includes]; apply orb_false_r).
  set (r3 := String LF warning).
  set (r2 := String LF (explanation ++ String LF (String LF (WARNING ++ r3)))).
  set (r1 := String LF (sql ++ String LF (String LF
                                            (BUSINESS_EXPLANATION ++ r2)))).
  assert (C : format_reply sql explanation warning = SQL_QUERY ++ r1)
    by reflexivity.
  unfold parse_reply. f_equal.
  - (* the SQL *)
    unfold extract_sql, split. rewrite C, (@split_go_match SQL_QUERY "" r1 Q).
    rewrite split_go_missing.
    2:{ subst r1 r2 r3. across_lines. now rewrite Ss, BQ, Es, GQ, Ws. }
    cbn [at_index nth_error chain append].
    replace r1 with (String LF (sql ++ String LF "")
                     ++ String LF (BUSINESS_EXPLANATION ++ r2))
      by (subst r1; cbn [append]; now rewrite append_assoc).
    rewrite (@split_go_first LF BUSINESS_EXPLANATION r2 LB B).
    2:{ across_lines. now rewrite Sb. }
    cbn [at_index nth_error chain append]. rewrite split_go_missing.
    2:{ rewrite append_assoc. cbn [append]. across_lines. now rewrite Sw. }
    cbn [at_index nth_error chain append]. rewrite append_assoc. cbn [append].
    rewrite (trim_between_lines Ts), or_else_same by now right.
    pose proof (@fence_sql sql F) as F'. unfold fence in F.
    rewrite (remove_missing _ _ F'), (remove_missing _ _ F).
    unfold trim. now rewrite (trimStart_fixed Ts), (trimEnd_fixed Ts).
  - (* the explanation *)
    unfold extract_explanation, split. rewrite C.
    replace (SQL_QUERY ++ r1)
      with ((SQL_QUERY ++ String LF (sql ++ String LF ""))
            ++ String LF (BUSINESS_EXPLANATION ++ r2))
      by (subst r1; rewrite !append_assoc; cbn [append];
          now rewrite append_assoc).
    rewrite (@split_go_first LF BUSINESS_EXPLANATION r2 LB B).
    2:{ across_lines. now rewrite QB, Sb. }
    rewrite split_go_missing.
    2:{ subst r2 r3. across_lines. now rewrite Eb, GB, Wb. }
    cbn [at_index nth_error chain append].
    replace r2 with (String LF (explanation ++ String LF "")
                     ++ String LF (WARNING ++ r3))
      by (subst r2; cbn [append]; now rewrite append_assoc).
    rewrite (@split_go_first LF WARNING r3 LG G).
    2:{ across_lines. now rewrite Ew. }
    cbn [at_index nth_error chain append]. rewrite append_assoc. cbn [append].
    rewrite (trim_between_lines Te). apply or_else_same. now left.
  - (* the warning *)
    unfold extract_warning, split. rewrite C.
    replace (SQL_QUERY ++ r1)
      with ((SQL_QUERY
             ++ String LF (sql ++ String LF (String LF
                  (BUSINESS_EXPLANATION
                   ++ String LF (explanation ++ String LF "")))))
            ++ String LF (WARNING ++ r3))
      by (subst r1 r2; rewrite !append_assoc; cbn [append];
          rewrite !append_assoc; cbn [append]; rewrite !append_assoc;
          cbn [append]; now rewrite ?append_assoc).
    rewrite (@split_go_first LF WARNING r3 LG G).
    2:{ across_lines. now rewrite QG, Sw, BG, Ew. }
    rewrite split_go_missing.
    2:{ subst r3. across_lines. exact Ww. }
    cbn [at_index nth_error chain append]. subst r3.
    rewrite (trim_after_line Tw). apply or_else_same. now right.
Qed.

Lemma reply_round_trip_witness :
  parse_reply (format_reply "SELECT id, total
FROM orders" "Lists the orders." "")
  = mkTranslation "SELECT id, total
FROM orders" "Lists the orders." "".
Proof.
  apply reply_round_trip;
    try (split; [|split]; reflexivity);
    try (apply literal_trimmed; vm_compute; reflexivity);
    try reflexivity.
  discriminate.
Defined.

End ReplyRoundTrip.

(** ** Download as CSV: text cells are read in one way only *)

Section CsvCells.
Import Download.

(** Compares two quoted bodies at their first characters. *)
Ltac first_chars H :=
  cbn [double_quotes append] in H;
  repeat match type of H with
    | context [Ascii.eqb ?y DQ] =>
        destruct (Ascii.eqb_spec y DQ); [subst y|]; cbn [append] in H
    end;
  try (injection H; clear H; intros; subst; try congruence).

Lemma quoted_body_unique (a : string) :
  forall b c d r1 r2,
    c <> DQ -> d <> DQ ->
    double_quotes a ++ String DQ (String c r1)
    = double_quotes b ++ String DQ (String d r2) ->
    a = b /\ c = d /\ r1 = r2.
Proof.
  induction a as [|x a IH]; intros [|y b] c d r1 r2 Nc Nd H; first_chars H.
  - auto.
  - match goal with
    | E : _ ++ _ = _ ++ _ |- _ => destruct (IH _ _ _ _ _ Nc Nd E) as [-> [-> ->]]
    end. auto.
  - match goal with
    | E : _ ++ _ = _ ++ _ |- _ => destruct (IH _ _ _ _ _ Nc Nd E) as [-> [-> ->]]
    end. auto.
Qed.

Lemma quoted_end_unique (a : string) :
  forall b,
    double_quotes a ++ String DQ "" = double_quotes b ++ String DQ "" -> a = b.
Proof.
  induction a as [|x a IH]; intros [|y b] H; first_chars H;
    try reflexivity;
    try match goal with
      | E : _ ++ _ = _ ++ _ |- _ => now rewrite (IH _ E)
      | E : "" = ?t ++ _ |- _ => destruct t; discriminate
      | E : ?t ++ _ = "" |- _ => destruct t; discriminate
      end.
Qed.

(** X26.  A text cell of the CSV download can be read in one way only:
    two cells that are followed by a character other than a quote (a
    comma, a line feed) and give the same line hold the same text and are
    followed by the same rest, whatever the text contains; and two cells
    that end the output alike hold the same text. *)
Theorem text_cell_unambiguous (a b : string) :
  (forall c d r1 r2,
      c <> DQ -> d <> DQ ->
      quote_cell a ++ String c r1 = quote_cell b ++ String d r2 ->
      a = b /\ c = d /\ r1 = r2) /\
  (quote_cell a = quote_cell b -> a = b).
Proof.
  unfold quote_cell. split.
  - intros c d r1 r2 Nc Nd H. cbn [append] in H. injection H as H.
    rewrite !append_assoc in H. cbn [append] in H.
    exact (quoted_body_unique _ _ _ _ Nc Nd H).
  - intros H. injection H as H. exact (quoted_end_unique _ _ H).
Qed.

End CsvCells.
